(** * simple-websocket-sol-price: the subscription registry and the broadcast
      loop of [src/index.js], as a shallow embedding.

    The server keeps a JavaScript [Map] from socket objects to per-client
    records ([subscriptions]), a counter ([connectionId]) and an object of
    latest prices ([currentPrices]).  Event handlers run to completion one at
    a time (Node's event loop), so each handler is a function on the state
    that may end with an exception.

    What is taken from the runtime rather than from the repository:
    - [Number.prototype.toString] is a variable of the section
      ([Number_toString]);
    - [JSON.parse] is represented by its outcome: a [Message] event carries
      either the parsed value or nothing (the parse threw);
    - the trace records, for each call of [ws.send], the object that is
      handed to [JSON.stringify] (none of these objects makes it throw);
      [JSON_stringify] gives the frame that the socket gets from it;
    - the clock, the [readyState] of every socket and whether a given call
      of [ws.send] throws belong to the environment ([Env]);
    - the floating-point random walk of [simulatePriceUpdates] is not
      computed: a [Tick] event carries the rounded price it produced. *)

From Stdlib Require Import Floats.SpecFloat.
From stdpp Require Import gmap strings list fin_maps pretty.

#[local] Set Warnings "-register-all".

(** ** JavaScript numbers and values *)

(** A JavaScript number is a binary64 float.  A double has one
    representation [S754_finite s m e] (the one with the normalised
    mantissa), so two finite numbers are the same value when the three
    components agree. *)
Definition number : Type := spec_float.

(** [SameValueZero], the equality of [Set.prototype.has/add/delete]:
    NaN equals NaN and +0 equals -0. *)
Definition sameValueZero (x y : number) : bool :=
  match x, y with
  | S754_nan, S754_nan => true
  | S754_zero _, S754_zero _ => true
  | S754_infinity a, S754_infinity b => Bool.eqb a b
  | S754_finite s m e, S754_finite s' m' e' =>
      Bool.eqb s s' && Pos.eqb m m' && Z.eqb e e'
  | _, _ => false
  end.

(** [ToBoolean] on a number: false for +0, -0 and NaN. *)
Definition number_truthy (x : number) : bool :=
  match x with
  | S754_zero _ | S754_nan => false
  | _ => true
  end.

(** The value of a finite number is [m * 2^e]: it is a whole number when
    the binary exponent is not negative or [2^(-e)] divides [m]. *)
Definition number_is_integer (x : number) : bool :=
  match x with
  | S754_zero _ => true
  | S754_finite _ m e =>
      (0 <=? e)%Z || (Z.pos m mod 2 ^ (- e) =? 0)%Z
  | _ => false
  end.

Definition number_is_positive_integer (x : number) : bool :=
  match x with
  | S754_finite false _ _ => number_is_integer x
  | _ => false
  end.

(** Whole numbers as doubles (normalised mantissa of 53 bits); exact for
    the integers below [2^53], which is all the samples need. *)
Definition shift_to_53 (m : positive) : positive * Z :=
  let d := Z.log2 (Z.pos m) in
  (Z.to_pos (Z.shiftl (Z.pos m) (52 - d)), (d - 52)%Z).

Definition number_of_Z (z : Z) : number :=
  match z with
  | Z0 => S754_zero false
  | Zpos p => let '(m, e) := shift_to_53 p in S754_finite false m e
  | Zneg p => let '(m, e) := shift_to_53 p in S754_finite true m e
  end.

(** A value produced by [JSON.parse].  The properties of an object are kept
    in their order of appearance; [JSON.parse] leaves one entry per key. *)
Inductive JSValue : Type :=
  | JNull
  | JBool (b : bool)
  | JNum (n : number)
  | JStr (s : string)
  | JArr (elems : list JSValue)
  | JObj (props : list (string * JSValue)).

(** What an expression can evaluate to here: [None] is [undefined]. *)
Definition JSResult : Type := option JSValue.

(** [ToBoolean]. *)
Definition truthy (v : JSResult) : bool :=
  match v with
  | None => false
  | Some JNull => false
  | Some (JBool b) => b
  | Some (JNum n) => number_truthy n
  | Some (JStr s) => negb (String.eqb s "")
  | Some (JArr _) => true
  | Some (JObj _) => true
  end.

Definition Array_isArray (v : JSResult) : bool :=
  match v with
  | Some (JArr _) => true
  | _ => false
  end.

Fixpoint own_property (props : list (string * JSValue)) (key : string)
  : JSResult :=
  match props with
  | [] => None
  | (k, v) :: rest => if String.eqb k key then Some v else own_property rest key
  end.

Inductive Exn : Type :=
  | TypeError
  | SyntaxError
  | SendError.

Inductive Completion (A : Type) : Type :=
  | Normal (a : A)
  | Throw (e : Exn).
Arguments Normal {A} a.
Arguments Throw {A} e.

(** [v.key] for the keys this program reads ([type], [subscriptions],
    [subscriptionId], [feedIds], [feedId]): none of them is defined on a
    built-in prototype, so only an own property of an object gives a value;
    reading a property of [null] throws a TypeError. *)
Definition get_prop (v : JSValue) (key : string) : Completion JSResult :=
  match v with
  | JNull => Throw TypeError
  | JObj props => Normal (own_property props key)
  | _ => Normal None
  end.

Definition join_with (sep : string) (parts : list string) : string :=
  match parts with
  | [] => ""
  | p :: ps => fold_left (fun acc q => String.append acc (String.append sep q)) ps p
  end.

Section WithRuntime.

(** [Number.prototype.toString]. *)
Variable Number_toString : number -> string.

(** [ToString] on a parsed value, as a template literal applies it: an
    array joins its elements with a comma ([null] gives the empty string),
    an object gives [[object Object]] unless it carries an own [toString]
    property, which is never callable, and then no conversion exists. *)
Fixpoint js_ToString (v : JSValue) : Completion string :=
  match v with
  | JNull => Normal "null"
  | JBool true => Normal "true"
  | JBool false => Normal "false"
  | JNum n => Normal (Number_toString n)
  | JStr s => Normal s
  | JArr elems =>
      let fix parts (l : list JSValue) : Completion (list string) :=
        match l with
        | [] => Normal []
        | e :: l' =>
            match (match e with JNull => Normal "" | _ => js_ToString e end) with
            | Throw x => Throw x
            | Normal s =>
                match parts l' with
                | Throw x => Throw x
                | Normal ss => Normal (s :: ss)
                end
            end
        end in
      match parts elems with
      | Throw x => Throw x
      | Normal ss => Normal (join_with "," ss)
      end
  | JObj props =>
      match own_property props "toString" with
      | Some _ => Throw TypeError
      | None => Normal "[object Object]"
      end
  end.

Definition template_ToString (v : JSResult) : Completion string :=
  match v with
  | None => Normal "undefined"
  | Some x => js_ToString x
  end.


(** ** The [Set] of feed ids of a client

    A JavaScript [Set] keeps its elements in insertion order and compares
    them with [SameValueZero].  Only numbers are ever added. *)

Definition FeedSet : Type := list number.

Fixpoint Set_has (x : number) (s : FeedSet) : bool :=
  match s with
  | [] => false
  | y :: s' => sameValueZero y x || Set_has x s'
  end.

Definition Set_add (x : number) (s : FeedSet) : FeedSet :=
  if Set_has x s then s else s ++ [x].

Fixpoint Set_delete (x : number) (s : FeedSet) : FeedSet :=
  match s with
  | [] => []
  | y :: s' => if sameValueZero y x then Set_delete x s' else y :: Set_delete x s'
  end.

(** ** The [Map] from sockets to client records

    A socket object is identified by a handle; the [Map] compares keys by
    object identity and iterates in insertion order. *)

Definition WS : Type := nat.
Definition Timestamp : Type := Z.

Record ClientData : Type := mkClientData {
  id : nat;
  subscribedFeeds : FeedSet;
  connectedAt : Timestamp
}.

Definition with_feeds (f : FeedSet -> FeedSet) (c : ClientData) : ClientData :=
  {| id := id c; subscribedFeeds := f (subscribedFeeds c);
     connectedAt := connectedAt c |}.

Definition Registry : Type := list (WS * ClientData).

Fixpoint Map_get (k : WS) (m : Registry) : option ClientData :=
  match m with
  | [] => None
  | (k', v) :: m' => if Nat.eqb k' k then Some v else Map_get k m'
  end.

Definition Map_has (k : WS) (m : Registry) : bool :=
  match Map_get k m with Some _ => true | None => false end.

(** [Map.prototype.set]: an existing key keeps its place. *)
Fixpoint Map_set (k : WS) (v : ClientData) (m : Registry) : Registry :=
  match m with
  | [] => [(k, v)]
  | (k', v') :: m' =>
      if Nat.eqb k' k then (k', v) :: m' else (k', v') :: Map_set k v m'
  end.

Fixpoint Map_delete (k : WS) (m : Registry) : Registry :=
  match m with
  | [] => []
  | (k', v') :: m' =>
      if Nat.eqb k' k then Map_delete k m' else (k', v') :: Map_delete k m'
  end.

(** A mutation of the record object that the [Map] holds for [k]. *)
Fixpoint Map_mutate (k : WS) (f : ClientData -> ClientData) (m : Registry)
  : Registry :=
  match m with
  | [] => []
  | (k', v') :: m' =>
      if Nat.eqb k' k then (k', f v') :: m' else (k', v') :: Map_mutate k f m'
  end.

Definition Map_keys (m : Registry) : list WS := map fst m.

(** No key occurs twice in a [Map]. *)
Definition Map_wf (m : Registry) : Prop := NoDup (Map_keys m).

(** ** Frames, the log and the state of the process *)

Record Update : Type := mkUpdate {
  feedId : number;
  price : string
}.

(** The objects handed to [JSON.stringify] and [ws.send]. *)
Inductive ServerMsg : Type :=
  | MConnected (clientId : nat) (message : string)
  | MPriceUpdate (timestamp : Timestamp) (updates : list Update)
  | MSubscribed (subscriptionId : JSValue) (feeds : list number)
  | MUnsubscribed (feeds : list number)
  | MPong (timestamp : Timestamp)
  | MError (message : string).

(** One call of [ws.send]: the socket, the frame, and whether it threw. *)
Record SendCall : Type := mkSendCall {
  to : WS;
  frame : ServerMsg;
  threw : bool
}.

Inductive LogEntry : Type :=
  | LogClientConnected (client : nat) (ip : string)
  | LogSendFailed (client : nat)
  | LogParseFailed (client : nat) (e : Exn)
  | LogDisconnected (client : nat) (code : Z) (reason : string)
  | LogSocketError (client : nat)
  | LogSubscribed (client : nat) (feeds : list number)
  | LogUnsubscribed (client : nat) (feeds : list number).

Record State : Type := mkState {
  subscriptions : Registry;
  connectionId : nat;
  currentPrices : gmap string number;
  listeners : list (WS * nat);
  wire : list SendCall;
  console : list LogEntry
}.

Definition set_subscriptions (f : Registry -> Registry) (st : State) : State :=
  {| subscriptions := f (subscriptions st); connectionId := connectionId st;
     currentPrices := currentPrices st; listeners := listeners st;
     wire := wire st; console := console st |}.

Definition set_connectionId (n : nat) (st : State) : State :=
  {| subscriptions := subscriptions st; connectionId := n;
     currentPrices := currentPrices st; listeners := listeners st;
     wire := wire st; console := console st |}.

Definition set_currentPrices
  (f : gmap string number -> gmap string number) (st : State) : State :=
  {| subscriptions := subscriptions st; connectionId := connectionId st;
     currentPrices := f (currentPrices st); listeners := listeners st;
     wire := wire st; console := console st |}.

Definition add_listeners (ws : WS) (clientId : nat) (st : State) : State :=
  {| subscriptions := subscriptions st; connectionId := connectionId st;
     currentPrices := currentPrices st;
     listeners := listeners st ++ [(ws, clientId)];
     wire := wire st; console := console st |}.

Definition push_wire (c : SendCall) (st : State) : State :=
  {| subscriptions := subscriptions st; connectionId := connectionId st;
     currentPrices := currentPrices st; listeners := listeners st;
     wire := wire st ++ [c]; console := console st |}.

Definition push_console (l : LogEntry) (st : State) : State :=
  {| subscriptions := subscriptions st; connectionId := connectionId st;
     currentPrices := currentPrices st; listeners := listeners st;
     wire := wire st; console := console st ++ [l] |}.

Inductive ReadyState : Type := CONNECTING | OPEN | CLOSING | CLOSED.

Definition is_OPEN (r : ReadyState) : bool :=
  match r with OPEN => true | _ => false end.

(** What a handler reads from outside the program while it runs.
    [send_throws k ws] tells whether the call of [ws.send] that is the
    [k]-th of the process (counting from 0) throws. *)
Record Env : Type := mkEnv {
  now : Timestamp;
  readyState : WS -> ReadyState;
  send_throws : nat -> WS -> bool
}.

(** ** Statements: state passing with exceptions *)

Definition M (A : Type) : Type := State -> Completion A * State.

Definition ret {A} (a : A) : M A := fun st => (Normal a, st).

Definition bind {A B} (c : M A) (k : A -> M B) : M B :=
  fun st =>
    match c st with
    | (Normal a, st') => k a st'
    | (Throw e, st') => (Throw e, st')
    end.

Definition lift {A} (c : Completion A) : M A := fun st => (c, st).

Definition modify (f : State -> State) : M unit := fun st => (Normal tt, f st).

Definition gets {A} (f : State -> A) : M A := fun st => (Normal (f st), st).

(** [try { c } catch (error) { h error }] *)
Definition try_catch {A} (c : M A) (h : Exn -> M A) : M A :=
  fun st =>
    match c st with
    | (Throw e, st') => h e st'
    | r => r
    end.

Notation "'let*' x ':=' c 'in' k" := (bind c (fun x => k))
  (at level 10, x name, c at level 100, k at level 200).
Notation "c ';;' k" := (bind c (fun _ => k))
  (at level 100, k at level 200, right associativity).

Definition console_log (l : LogEntry) : M unit := modify (push_console l).

(** [subscriptions.delete(ws)]: all the program keeps about a connection. *)
Definition unregister (ws : WS) : State -> State :=
  set_subscriptions (Map_delete ws).

(** [ws.send(JSON.stringify(f))].  The call is recorded with the object
    [f]; the frame that the socket gets is [JSON_stringify f] (see [sent]),
    which differs from [f] only where [f] holds a number that is not
    finite. *)
Definition ws_send (env : Env) (ws : WS) (f : ServerMsg) : M unit :=
  fun st =>
    let failed := send_throws env (length (wire st)) ws in
    (if failed then Throw SendError else Normal tt,
     push_wire (mkSendCall ws f failed) st).

(** ** The handlers of [src/index.js] *)

Definition SOL_FEED_ID : number := number_of_Z 6.

(** The literal [245.67] as a double. *)
Definition starting_SOL_price : number :=
  S754_finite false 8643744691063357 (-45).

(** The state when the module has been loaded.  A property key of the
    object [currentPrices] is the string of the number used as key. *)
Definition initial_state : State :=
  {| subscriptions := [];
     connectionId := 0;
     currentPrices := {[ Number_toString SOL_FEED_ID := starting_SOL_price ]};
     listeners := [];
     wire := [];
     console := [] |}.

(** [Map.prototype.forEach] on [subscriptions].  The entries are visited in
    insertion order; an entry deleted before its turn is not visited, and
    the record passed is the one the [Map] holds at that moment.  (The
    callback of this program adds no entry.) *)
Fixpoint forEach_keys (ks : list WS) (f : ClientData -> WS -> M unit) : M unit :=
  match ks with
  | [] => ret tt
  | k :: ks' =>
      (fun st =>
         match Map_get k (subscriptions st) with
         | Some v => f v k st
         | None => (Normal tt, st)
         end) ;;
      forEach_keys ks' f
  end.

Definition subscriptions_forEach (f : ClientData -> WS -> M unit) : M unit :=
  fun st => forEach_keys (Map_keys (subscriptions st)) f st.

(** The callback of [subscriptions.forEach] (lines 56-66). *)
Definition broadcast_callback (env : Env) (feedId : number)
  (updateMessage : ServerMsg) (clientData : ClientData) (ws : WS) : M unit :=
  if is_OPEN (readyState env ws) && Set_has feedId (subscribedFeeds clientData)
  then
    try_catch
      (ws_send env ws updateMessage)
      (fun error =>
         console_log (LogSendFailed (id clientData)) ;;
         modify (unregister ws))
  else ret tt.

(** lines 46-67 *)
Definition broadcastPriceUpdate (env : Env) (feedId : number) (price : number)
  : M unit :=
  let updateMessage :=
    MPriceUpdate (now env) [mkUpdate feedId (Number_toString price)] in
  subscriptions_forEach (broadcast_callback env feedId updateMessage).

(** The body of the timer callback of [simulatePriceUpdates] (lines 40-41),
    given the rounded price that the random walk produced.  The price
    passed on is read back from [currentPrices]; [price.toString()] on a
    missing entry would be a TypeError. *)
Definition simulatePriceUpdates_tick (env : Env) (newPrice : number) : M unit :=
  modify (set_currentPrices (insert (Number_toString SOL_FEED_ID) newPrice)) ;;
  let* p := gets (fun st => currentPrices st !! Number_toString SOL_FEED_ID) in
  match p with
  | Some p => broadcastPriceUpdate env SOL_FEED_ID p
  | None => lift (Throw TypeError)
  end.

(** The callback of [message.subscriptions.forEach] (lines 158-175), with
    the local array [subscribedFeeds] passed along.  The guard of line 159
    holds for a number that is truthy.  The key looked up in
    [currentPrices] is the string of a number, which names no property of
    [Object.prototype]. *)
Definition subscribe_one (env : Env) (ws : WS) (sub : JSValue)
  (subscribedFeeds : list number) (st : State)
  : Completion unit * list number * State :=
  match get_prop sub "feedId" with
  | Throw e => (Throw e, subscribedFeeds, st)
  | Normal fid =>
      match fid with
      | Some (JNum n) =>
          if truthy fid then
            let st1 :=
              set_subscriptions (Map_mutate ws (with_feeds (Set_add n))) st in
            let subscribedFeeds1 := subscribedFeeds ++ [n] in
            match currentPrices st1 !! Number_toString n with
            | Some p =>
                let '(r, st2) :=
                  ws_send env ws
                    (MPriceUpdate (now env) [mkUpdate n (Number_toString p)]) st1 in
                (r, subscribedFeeds1, st2)
            | None => (Normal tt, subscribedFeeds1, st1)
            end
          else (Normal tt, subscribedFeeds, st)
      | _ => (Normal tt, subscribedFeeds, st)
      end
  end.

(** [Array.prototype.forEach]: an exception in the callback ends the loop. *)
Fixpoint subscribe_each (env : Env) (ws : WS) (subs : list JSValue)
  (subscribedFeeds : list number) (st : State)
  : Completion unit * list number * State :=
  match subs with
  | [] => (Normal tt, subscribedFeeds, st)
  | sub :: rest =>
      match subscribe_one env ws sub subscribedFeeds st with
      | (Normal _, acc, st') => subscribe_each env ws rest acc st'
      | (Throw e, acc, st') => (Throw e, acc, st')
      end
  end.

(** [message.subscriptionId || null] *)
Definition or_null (v : JSResult) : JSValue :=
  match v with
  | Some x => if truthy v then x else JNull
  | None => JNull
  end.

(** lines 144-185 *)
Definition handleSubscription (env : Env) (ws : WS) (message : JSValue) : M unit :=
  let* clientData := gets (fun st => Map_get ws (subscriptions st)) in
  match clientData with
  | None => ret tt
  | Some clientData =>
      let* subs := lift (get_prop message "subscriptions") in
      if negb (truthy subs) || negb (Array_isArray subs) then
        ws_send env ws (MError "Invalid subscription format")
      else
        match subs with
        | Some (JArr elems) =>
            let* subscribedFeeds :=
              (fun st =>
                 match subscribe_each env ws elems [] st with
                 | (Normal _, acc, st') => (Normal acc, st')
                 | (Throw e, _, st') => (Throw e, st')
                 end) in
            let* sid := lift (get_prop message "subscriptionId") in
            ws_send env ws (MSubscribed (or_null sid) subscribedFeeds) ;;
            console_log (LogSubscribed (id clientData) subscribedFeeds)
        | _ => ret tt
        end
  end.

(** The callback of [message.feedIds.forEach] (lines 202-207).  A value that
    is not a number is never an element of the set. *)
Definition unsubscribe_one (ws : WS) (feedId : JSValue)
  (unsubscribedFeeds : list number) (st : State) : list number * State :=
  match feedId, Map_get ws (subscriptions st) with
  | JNum n, Some clientData =>
      if Set_has n (subscribedFeeds clientData) then
        (unsubscribedFeeds ++ [n],
         set_subscriptions (Map_mutate ws (with_feeds (Set_delete n))) st)
      else (unsubscribedFeeds, st)
  | _, _ => (unsubscribedFeeds, st)
  end.

Fixpoint unsubscribe_each (ws : WS) (feedIds : list JSValue)
  (unsubscribedFeeds : list number) (st : State) : list number * State :=
  match feedIds with
  | [] => (unsubscribedFeeds, st)
  | feedId :: rest =>
      let '(acc, st') := unsubscribe_one ws feedId unsubscribedFeeds st in
      unsubscribe_each ws rest acc st'
  end.

(** lines 188-215 *)
Definition handleUnsubscription (env : Env) (ws : WS) (message : JSValue)
  : M unit :=
  let* clientData := gets (fun st => Map_get ws (subscriptions st)) in
  match clientData with
  | None => ret tt
  | Some clientData =>
      let* feedIds := lift (get_prop message "feedIds") in
      if negb (truthy feedIds) || negb (Array_isArray feedIds) then
        ws_send env ws (MError "Invalid unsubscription format")
      else
        match feedIds with
        | Some (JArr elems) =>
            let* unsubscribedFeeds :=
              (fun st =>
                 let '(acc, st') := unsubscribe_each ws elems [] st in
                 (Normal acc, st')) in
            ws_send env ws (MUnsubscribed unsubscribedFeeds) ;;
            console_log (LogUnsubscribed (id clientData) unsubscribedFeeds)
        | _ => ret tt
        end
  end.

Definition is_string (v : JSResult) (s : string) : bool :=
  match v with
  | Some (JStr s') => String.eqb s' s
  | _ => false
  end.

(** lines 118-141 *)
Definition handleClientMessage (env : Env) (ws : WS) (message : JSValue)
  : M unit :=
  let* clientData := gets (fun st => Map_get ws (subscriptions st)) in
  match clientData with
  | None => ret tt
  | Some _ =>
      let* type := lift (get_prop message "type") in
      if is_string type "subscribe" then handleSubscription env ws message
      else if is_string type "unsubscribe" then handleUnsubscription env ws message
      else if is_string type "ping" then ws_send env ws (MPong (now env))
      else
        let* shown := lift (template_ToString type) in
        ws_send env ws
          (MError (String.append "Unknown message type: " shown))
  end.

(** The listener of ['message'] (lines 91-102); [parsed] is the outcome of
    [JSON.parse(data.toString())]. *)
Definition on_message (env : Env) (ws : WS) (clientId : nat)
  (parsed : option JSValue) : M unit :=
  try_catch
    (let* message :=
       lift (match parsed with
             | Some v => Normal v
             | None => Throw SyntaxError
             end) in
     handleClientMessage env ws message)
    (fun error =>
       console_log (LogParseFailed clientId error) ;;
       ws_send env ws (MError "Invalid JSON format")).

(** The listener of ['close'] (lines 105-108). *)
Definition on_close (ws : WS) (clientId : nat) (code : Z) (reason : string)
  : M unit :=
  console_log (LogDisconnected clientId code reason) ;;
  modify (unregister ws).

(** The listener of ['error'] (lines 111-114). *)
Definition on_error (ws : WS) (clientId : nat) : M unit :=
  console_log (LogSocketError clientId) ;;
  modify (unregister ws).

(** The listener of ['connection'] on the server (lines 70-115). *)
Definition on_connection (env : Env) (ws : WS) (clientIP : string) : M unit :=
  let* clientId := gets (fun st => S (connectionId st)) in
  modify (set_connectionId clientId) ;;
  console_log (LogClientConnected clientId clientIP) ;;
  modify (set_subscriptions
            (Map_set ws {| id := clientId; subscribedFeeds := [];
                           connectedAt := now env |})) ;;
  ws_send env ws (MConnected clientId "Connected to Bananazone price feed") ;;
  modify (add_listeners ws clientId).

(** ** The event loop *)

Inductive Event : Type :=
  | Connection (ws : WS) (clientIP : string)
  | Message (ws : WS) (parsed : option JSValue)
  | Close (ws : WS) (code : Z) (reason : string)
  | Error (ws : WS)
  | Tick (newPrice : number).

(** The client id captured by the listeners attached to a socket.  The
    server hands a socket object to the ['connection'] listener once. *)
Fixpoint listener_of (ws : WS) (ls : list (WS * nat)) : option nat :=
  match ls with
  | [] => None
  | (w, c) :: ls' => if Nat.eqb w ws then Some c else listener_of ws ls'
  end.

(** An event of a socket runs the listener attached to it, if any. *)
Definition with_listener (ws : WS) (h : nat -> M unit) : M unit :=
  fun st =>
    match listener_of ws (listeners st) with
    | Some clientId => h clientId st
    | None => (Normal tt, st)
    end.

Definition handle (env : Env) (ev : Event) : M unit :=
  match ev with
  | Connection ws clientIP => on_connection env ws clientIP
  | Message ws parsed =>
      with_listener ws (fun clientId => on_message env ws clientId parsed)
  | Close ws code reason =>
      with_listener ws (fun clientId => on_close ws clientId code reason)
  | Error ws => with_listener ws (fun clientId => on_error ws clientId)
  | Tick newPrice => simulatePriceUpdates_tick env newPrice
  end.

(** An exception that leaves a listener is uncaught: the process ends. *)
Inductive Process : Type :=
  | Running (st : State)
  | Crashed (st : State).

Definition step (p : Process) (ee : Env * Event) : Process :=
  match p with
  | Running st =>
      match handle (fst ee) (snd ee) st with
      | (Normal _, st') => Running st'
      | (Throw _, st') => Crashed st'
      end
  | Crashed st => Crashed st
  end.

Definition run (p : Process) (evs : list (Env * Event)) : Process :=
  fold_left step evs p.

Definition state_of (p : Process) : State :=
  match p with Running st | Crashed st => st end.

Definition is_running (p : Process) : bool :=
  match p with Running _ => true | Crashed _ => false end.

(** ** Derived notions used by the statements *)

Definition registered (ws : WS) (st : State) : bool :=
  Map_has ws (subscriptions st).

(** The feed set of a connection; empty when it is not registered. *)
Definition feeds_of (ws : WS) (st : State) : FeedSet :=
  match Map_get ws (subscriptions st) with
  | Some c => subscribedFeeds c
  | None => []
  end.

Definition subscribed (ws : WS) (feedId : number) (st : State) : bool :=
  Set_has feedId (feeds_of ws st).

(** The registered connections that have [feedId] in their set. *)
Definition subscribersOf (feedId : number) (st : State) : list WS :=
  map fst
    (List.filter (fun e => Set_has feedId (subscribedFeeds (snd e)))
       (subscriptions st)).

(** Those of them whose socket is open: the ones [broadcastPriceUpdate]
    calls [send] on. *)
Definition recipients (env : Env) (feedId : number) (st : State) : list WS :=
  List.filter (fun ws => is_OPEN (readyState env ws)) (subscribersOf feedId st).

(** The calls of [ws.send] made between two states. *)
Definition calls_since (st st' : State) : list SendCall :=
  drop (length (wire st)) (wire st').

Definition frames_to (ws : WS) (calls : list SendCall) : list ServerMsg :=
  map frame (List.filter (fun c => Nat.eqb (to c) ws) calls).

Definition delivered_to (ws : WS) (calls : list SendCall) : list ServerMsg :=
  map frame (List.filter (fun c => Nat.eqb (to c) ws && negb (threw c)) calls).

Definition priceUpdate (env : Env) (feedId price : number) : ServerMsg :=
  MPriceUpdate (now env) [mkUpdate feedId (Number_toString price)].

(** The feed id a [subscribe] element is accepted with (line 159):
    [sub.feedId] is a number other than 0 and NaN. *)
Definition accepted_feedId (sub : JSValue) : option number :=
  match sub with
  | JObj props =>
      match own_property props "feedId" with
      | Some (JNum n) => if number_truthy n then Some n else None
      | _ => None
      end
  | _ => None
  end.

Definition accepted_feedIds (subs : list JSValue) : list number :=
  omap accepted_feedId subs.

(** The spec's wording of a valid feed id: a positive integer. *)
Definition spec_valid_feedId (sub : JSValue) : option number :=
  match sub with
  | JObj props =>
      match own_property props "feedId" with
      | Some (JNum n) => if number_is_positive_integer n then Some n else None
      | _ => None
      end
  | _ => None
  end.

Definition is_null (v : JSValue) : bool :=
  match v with JNull => true | _ => false end.

(** The snapshot frames for a list of accepted feed ids. *)
Definition snapshots (env : Env) (prices : gmap string number)
  (ids : list number) : list ServerMsg :=
  omap (fun n =>
          match prices !! Number_toString n with
          | Some p => Some (priceUpdate env n p)
          | None => None
          end) ids.

(** Whether a list of request values names the feed id [n]. *)
Definition listed (n : number) (feedIds : list JSValue) : bool :=
  existsb (fun v => match v with JNum m => sameValueZero m n | _ => false end)
    feedIds.

End WithRuntime.

(** ** Sample data, to run the model

    A rendering of numbers to stand for [Number.prototype.toString] when the
    model is evaluated: whole numbers in decimal, other finite numbers as
    mantissa and binary exponent.  Like the real one it gives different
    strings for numbers that differ (up to the sign of zero). *)
Definition sample_toString (n : number) : string :=
  match n with
  | S754_zero _ => "0"
  | S754_nan => "NaN"
  | S754_infinity s => if s then "-Infinity" else "Infinity"
  | S754_finite s m e =>
      String.append (if s then "-" else "")
        (if (0 <=? e)%Z then pretty (Z.pos m * 2 ^ e)%Z
         else if (Z.pos m mod 2 ^ (- e) =? 0)%Z
              then pretty (Z.pos m / 2 ^ (- e))%Z
              else String.append (pretty (Z.pos m))
                     (String.append "p" (pretty e)))
  end.

Definition num (z : Z) : number := number_of_Z z.

(** An environment where every socket is open and no send throws. *)
Definition calm_env : Env :=
  {| now := 0%Z; readyState := fun _ => OPEN; send_throws := fun _ _ => false |}.

(** [{"feedId": n}] *)
Definition feed_obj (n : number) : JSValue := JObj [("feedId", JNum n)].

(** [{"type":"subscribe","subscriptions":subs}] *)
Definition subscribe_msg (subs : list JSValue) : JSValue :=
  JObj [("type", JStr "subscribe"); ("subscriptions", JArr subs)].

(** [{"type":"unsubscribe","feedIds":ids}] *)
Definition unsubscribe_msg (ids : list JSValue) : JSValue :=
  JObj [("type", JStr "unsubscribe"); ("feedIds", JArr ids)].

(** Socket 1 is closing, the others are open; no send throws. *)
Definition one_closing : Env :=
  {| now := 0%Z;
     readyState := fun ws => if Nat.eqb ws 1 then CLOSING else OPEN;
     send_throws := fun _ _ => false |}.

(** Every socket is open and every send to socket [w] throws. *)
Definition failing_env (w : WS) : Env :=
  {| now := 0%Z; readyState := fun _ => OPEN;
     send_throws := fun _ ws => Nat.eqb ws w |}.

Definition sample_run (evs : list (Env * Event)) : Process :=
  run sample_toString (Running (initial_state sample_toString)) evs.

(** Two clients connect. *)
Definition two_clients : State :=
  state_of (sample_run
    [(calm_env, Connection 1 "10.0.0.1"); (calm_env, Connection 2 "10.0.0.2")]).

(** Two clients connect and subscribe to feed 6. *)
Definition two_subscribers : State :=
  state_of (sample_run
    [(calm_env, Connection 1 "10.0.0.1");
     (calm_env, Connection 2 "10.0.0.2");
     (calm_env, Message 1 (Some (subscribe_msg [feed_obj (num 6)])));
     (calm_env, Message 2 (Some (subscribe_msg [feed_obj (num 6)])))]).

(** The double 1.5. *)
Definition one_and_a_half : number := S754_finite false 6755399441055744 (-52).

(** One client connects, subscribes to feed 6 and a price is published. *)
Definition sample_events : list (Env * Event) :=
  [(calm_env, Connection 1 "10.0.0.1");
   (calm_env, Message 1 (Some (subscribe_msg [feed_obj (num 6)])));
   (calm_env, Tick (num 200))].

(** ** Further notions the statements use *)

Definition is_zero (x : number) : bool :=
  match x with S754_zero _ => true | _ => false end.

(** [Set.prototype.add] for each element of a list, in order. *)
Definition add_all (ids : list number) (s : FeedSet) : FeedSet :=
  fold_left (fun s n => Set_add n s) ids s.

(** The two request kinds that carry a list of feeds. *)
Inductive RequestKind : Type := SubscribeRequest | UnsubscribeRequest.

Definition request_type (k : RequestKind) : string :=
  match k with
  | SubscribeRequest => "subscribe"
  | UnsubscribeRequest => "unsubscribe"
  end.

Definition request_field (k : RequestKind) : string :=
  match k with
  | SubscribeRequest => "subscriptions"
  | UnsubscribeRequest => "feedIds"
  end.

Definition format_error (k : RequestKind) : ServerMsg :=
  match k with
  | SubscribeRequest => MError "Invalid subscription format"
  | UnsubscribeRequest => MError "Invalid unsubscription format"
  end.

(** The loop of [handleUnsubscription] seen on the feed set alone: the ids
    it removes, in order, and the set it leaves. *)
Fixpoint unsubscribe_result (feedIds : list JSValue) (s : FeedSet)
  : list number * FeedSet :=
  match feedIds with
  | [] => ([], s)
  | JNum n :: rest =>
      if Set_has n s then
        let '(r, s') := unsubscribe_result rest (Set_delete n s) in (n :: r, s')
      else unsubscribe_result rest s
  | _ :: rest => unsubscribe_result rest s
  end.

(** No two elements of the list are the same value. *)
Fixpoint distinct_ids (l : list number) : bool :=
  match l with
  | [] => true
  | n :: l' => negb (Set_has n l') && distinct_ids l'
  end.

(** Whether [broadcastPriceUpdate] calls [send] on the socket [k], given
    the [Map] at that moment. *)
Definition targeted (env : Env) (feedId : number) (m : Registry) (k : WS)
  : bool :=
  match Map_get k m with
  | Some c => is_OPEN (readyState env k) && Set_has feedId (subscribedFeeds c)
  | None => false
  end.

(** The [Map] after the sockets of the calls that threw are deleted. *)
Definition remove_failed (calls : list SendCall) (m : Registry) : Registry :=
  fold_left (fun m c => if threw c then Map_delete (to c) m else m) calls m.

(** *** The life of a connection, as the registry should follow it *)


(** The sockets handed to the ['connection'] listener by a list of events. *)
Fixpoint connections (evs : list (Env * Event)) : list WS :=
  match evs with
  | [] => []
  | (_, Connection ws _) :: evs' => ws :: connections evs'
  | _ :: evs' => connections evs'
  end.










(** *** What a handler leaves alone *)

(** What the registry keeps of every connection whatever the messages:
    the socket, the client id and the time of connection, in the order of
    the [Map]. *)
Definition skeleton (m : Registry) : list (WS * nat * Timestamp) :=
  map (fun e => (fst e, id (snd e), connectedAt (snd e))) m.

(** Between the two states the only calls of [send] are to [ws], and
    nothing but the feed set of [ws] may differ in the registry; the
    prices, the counter and the listeners are the same. *)
Definition touches_only (ws : WS) (st st' : State) : Prop :=
  (exists calls, wire st' = wire st ++ calls /\
                 Forall (fun c => to c = ws) calls) /\
  currentPrices st' = currentPrices st /\
  connectionId st' = connectionId st /\
  listeners st' = listeners st /\
  skeleton (subscriptions st') = skeleton (subscriptions st) /\
  (forall k, k <> ws ->
             Map_get k (subscriptions st') = Map_get k (subscriptions st)).

Definition confined {A : Type} (ws : WS) (m : M A) : Prop :=
  forall st r st', m st = (r, st') -> touches_only ws st st'.

(** The client ids of the registry are pairwise different and lie between
    1 and the counter [connectionId]. *)
Definition client_ids (m : Registry) : list nat :=
  map (fun e => id (snd e)) m.

Definition ids_ok (st : State) : Prop :=
  NoDup (client_ids (subscriptions st)) /\
  Forall (fun e => 1 <= id (snd e) <= connectionId st) (subscriptions st).

(** What holds of every state the server goes through. *)
Definition server_invariant (toString : number -> string) (st : State) : Prop :=
  Map_wf (subscriptions st) /\
  ids_ok st /\
  exists p, currentPrices st = {[ toString SOL_FEED_ID := p ]}.

(** No call of [send] throws in this environment. *)
Definition sends_succeed (env : Env) : Prop :=
  forall k ws, send_throws env k ws = false.

(** The message of [src/test-client.js] (lines 12-15). *)
Definition subscriptionMessage : JSValue :=
  JObj [("type", JStr "subscribe");
        ("subscriptions", JArr [JObj [("feedId", JNum SOL_FEED_ID)]])].

(** The timer fires once for each price of the list. *)
Definition tick_events (ticks : list (Env * number)) : list (Env * Event) :=
  map (fun t => (fst t, Tick (snd t))) ticks.

(** *** The frame that the socket gets

    [ws.send] is given [JSON.stringify(obj)].  JSON has no Infinity and no
    NaN: [JSON.stringify] writes [null] for a number that is not finite,
    and [0] for -0; every other number is written so that it reads back as
    the same double.  A frame is taken here as the JSON value that the text
    denotes (the order in which the properties of an object are written is
    not represented). *)

(** A number as the text has it: [None] is [null]. *)
Definition wire_number (n : number) : option number :=
  match n with
  | S754_finite _ _ _ => Some n
  | S754_zero _ => Some (S754_zero false)
  | S754_infinity _ | S754_nan => None
  end.

(** [JSON.stringify] on a parsed value, read back. *)
Fixpoint stringify_value (v : JSValue) : JSValue :=
  match v with
  | JNum n =>
      match wire_number n with
      | Some m => JNum m
      | None => JNull
      end
  | JArr elems => JArr (map stringify_value elems)
  | JObj props =>
      JObj (map (fun kv => let '(k, x) := kv in (k, stringify_value x)) props)
  | _ => v
  end.

Inductive SentFrame : Type :=
  | FConnected (clientId : nat) (message : string)
  | FPriceUpdate (timestamp : Timestamp)
      (updates : list (option number * string))
  | FSubscribed (subscriptionId : JSValue)
      (subscribedFeeds : list (option number))
  | FUnsubscribed (unsubscribedFeeds : list (option number))
  | FPong (timestamp : Timestamp)
  | FError (message : string).

(** [JSON.stringify] on the objects that the server hands to it. *)
Definition JSON_stringify (f : ServerMsg) : SentFrame :=
  match f with
  | MConnected clientId message => FConnected clientId message
  | MPriceUpdate timestamp updates =>
      FPriceUpdate timestamp
        (map (fun u => (wire_number (feedId u), price u)) updates)
  | MSubscribed subscriptionId feeds =>
      FSubscribed (stringify_value subscriptionId) (map wire_number feeds)
  | MUnsubscribed feeds => FUnsubscribed (map wire_number feeds)
  | MPong timestamp => FPong timestamp
  | MError message => FError message
  end.

(** The frame of a call of [ws.send(JSON.stringify(obj))]. *)
Definition sent (c : SendCall) : SentFrame := JSON_stringify (frame c).



(** The double Infinity, which [JSON.parse] gives for the text [1e999]. *)
Definition Infinity : number := S754_infinity false.

(** Client 1 of two has subscribed with [{"feedId": 1e999}]. *)
Definition infinity_subscriber : State :=
  snd (on_message sample_toString calm_env 1 1
         (Some (subscribe_msg [feed_obj Infinity])) two_clients).

(** * Properties *)

(** ** [SameValueZero] and the feed set *)

Lemma sameValueZero_spec (x y : number) :
  sameValueZero x y = true <-> x = y \/ (is_zero x = true /\ is_zero y = true).
Proof.
  destruct x as [a|a| |a m e], y as [b|b| |b n f]; simpl;
    rewrite ?andb_true_iff, ?Bool.eqb_true_iff, ?Pos.eqb_eq, ?Z.eqb_eq;
    intuition (try discriminate; try congruence).
Qed.

Lemma sameValueZero_refl (x : number) : sameValueZero x x = true.
Proof. apply sameValueZero_spec. now left. Qed.

Lemma sameValueZero_sym (x y : number) : sameValueZero x y = sameValueZero y x.
Proof.
  apply eq_true_iff_eq. rewrite !sameValueZero_spec. intuition congruence.
Qed.

Lemma sameValueZero_trans (x y z : number) :
  sameValueZero x y = true -> sameValueZero y z = true ->
  sameValueZero x z = true.
Proof.
  rewrite !sameValueZero_spec.
  intros [->|[Hx Hy]] [->|[Hy' Hz]]; auto.
Qed.

Lemma sameValueZero_compat (x y z : number) :
  sameValueZero x y = true -> sameValueZero x z = sameValueZero y z.
Proof.
  intros H. apply eq_true_iff_eq. split; intros H'.
  - apply sameValueZero_trans with x; [rewrite sameValueZero_sym|]; assumption.
  - apply sameValueZero_trans with y; assumption.
Qed.

Lemma Set_has_app (x : number) (s t : FeedSet) :
  Set_has x (s ++ t) = Set_has x s || Set_has x t.
Proof.
  induction s as [|y s IH]; simpl; [reflexivity|].
  rewrite IH. apply orb_assoc.
Qed.

Lemma Set_has_add (x y : number) (s : FeedSet) :
  Set_has y (Set_add x s) = Set_has y s || sameValueZero x y.
Proof.
  unfold Set_add. destruct (Set_has x s) eqn:Hx.
  - destruct (sameValueZero x y) eqn:Hxy; [|now rewrite orb_false_r].
    rewrite orb_true_r. clear -Hx Hxy.
    induction s as [|z s IH]; simpl in *; [discriminate|].
    apply orb_true_iff in Hx as [Hz|Hs].
    + rewrite (sameValueZero_trans z x y Hz Hxy). reflexivity.
    + rewrite (IH Hs). apply orb_true_r.
  - rewrite Set_has_app. simpl. now rewrite orb_false_r.
Qed.

Lemma Set_has_delete (x y : number) (s : FeedSet) :
  Set_has y (Set_delete x s) = Set_has y s && negb (sameValueZero x y).
Proof.
  induction s as [|z s IH]; simpl; [reflexivity|].
  destruct (sameValueZero z x) eqn:Hzx; simpl; rewrite IH.
  - rewrite (sameValueZero_compat z x y Hzx).
    destruct (sameValueZero x y); simpl; [now rewrite !andb_false_r|].
    now rewrite !andb_true_r.
  - destruct (sameValueZero z y) eqn:Hzy; simpl; [|reflexivity].
    destruct (sameValueZero x y) eqn:Hxy; simpl; [|reflexivity].
    rewrite sameValueZero_sym in Hxy.
    rewrite (sameValueZero_trans z y x Hzy Hxy) in Hzx. discriminate.
Qed.

Lemma Set_add_present (x : number) (s : FeedSet) :
  Set_has x s = true -> Set_add x s = s.
Proof. unfold Set_add. now intros ->. Qed.

(** ** The [Map] *)

Lemma Map_get_delete (k k' : WS) (m : Registry) :
  Map_get k (Map_delete k' m) = if Nat.eqb k' k then None else Map_get k m.
Proof.
  induction m as [|[j v] m IH]; simpl.
  - now destruct (Nat.eqb k' k).
  - destruct (Nat.eqb_spec j k') as [->|Hj]; simpl.
    + rewrite IH. now destruct (Nat.eqb k' k).
    + rewrite IH. destruct (Nat.eqb_spec j k) as [->|Hjk]; [|reflexivity].
      destruct (Nat.eqb_spec k' k); [congruence | reflexivity].
Qed.

Lemma Map_get_mutate (k k' : WS) (f : ClientData -> ClientData) (m : Registry) :
  Map_get k (Map_mutate k' f m) =
  if Nat.eqb k' k then option_map f (Map_get k m) else Map_get k m.
Proof.
  induction m as [|[j v] m IH]; simpl.
  - now destruct (Nat.eqb k' k).
  - destruct (Nat.eqb_spec j k') as [->|Hj]; simpl.
    + destruct (Nat.eqb_spec k' k); reflexivity.
    + rewrite IH. destruct (Nat.eqb_spec j k) as [->|Hjk]; [|reflexivity].
      destruct (Nat.eqb_spec k' k); [congruence | reflexivity].
Qed.

Lemma Map_get_set (k k' : WS) (v : ClientData) (m : Registry) :
  Map_get k (Map_set k' v m) = if Nat.eqb k' k then Some v else Map_get k m.
Proof.
  induction m as [|[j w] m IH]; simpl.
  - reflexivity.
  - destruct (Nat.eqb_spec j k') as [->|Hj]; simpl.
    + destruct (Nat.eqb_spec k' k); reflexivity.
    + rewrite IH. destruct (Nat.eqb_spec j k) as [->|Hjk]; [|reflexivity].
      destruct (Nat.eqb_spec k' k); [congruence | reflexivity].
Qed.


Lemma Map_get_None (k : WS) (m : Registry) :
  Map_get k m = None <-> ~ In k (Map_keys m).
Proof.
  induction m as [|[j v] m IH]; simpl; [tauto|].
  destruct (Nat.eqb_spec j k) as [->|Hj].
  - split; [discriminate | intros H; exfalso; apply H; now left].
  - rewrite IH. tauto.
Qed.

Lemma Map_delete_absent (k : WS) (m : Registry) :
  Map_get k m = None -> Map_delete k m = m.
Proof.
  induction m as [|[j v] m IH]; simpl; [reflexivity|].
  destruct (Nat.eqb j k); [discriminate|]. intros H. now rewrite IH.
Qed.

Lemma Map_delete_idem (k : WS) (m : Registry) :
  Map_delete k (Map_delete k m) = Map_delete k m.
Proof.
  apply Map_delete_absent. rewrite Map_get_delete. now rewrite Nat.eqb_refl.
Qed.

Lemma Map_keys_delete_incl (k j : WS) (m : Registry) :
  In j (Map_keys (Map_delete k m)) -> In j (Map_keys m).
Proof.
  induction m as [|[i v] m IH]; simpl; [tauto|].
  destruct (Nat.eqb i k); simpl; tauto.
Qed.

Lemma Map_wf_delete (k : WS) (m : Registry) :
  Map_wf m -> Map_wf (Map_delete k m).
Proof.
  unfold Map_wf. induction m as [|[i v] m IH]; simpl; [auto|].
  rewrite !NoDup_cons. intros [Hi Hm].
  destruct (Nat.eqb i k); simpl; [auto|].
  rewrite NoDup_cons. split; [|auto].
  rewrite list_elem_of_In in *. intros H. apply Hi.
  now apply Map_keys_delete_incl in H.
Qed.


Lemma Map_keys_set (k j : WS) (v : ClientData) (m : Registry) :
  In j (Map_keys (Map_set k v m)) -> j = k \/ In j (Map_keys m).
Proof.
  induction m as [|[i w] m IH]; simpl; [intuition|].
  destruct (Nat.eqb_spec i k); simpl; tauto.
Qed.

Lemma Map_wf_set (k : WS) (v : ClientData) (m : Registry) :
  Map_wf m -> Map_wf (Map_set k v m).
Proof.
  unfold Map_wf. induction m as [|[i w] m IH]; simpl.
  - intros _. apply NoDup_singleton.
  - rewrite NoDup_cons. intros [Hi Hm].
    destruct (Nat.eqb_spec i k) as [->|Hik]; simpl.
    + rewrite NoDup_cons. auto.
    + rewrite NoDup_cons. split; [|auto].
      rewrite list_elem_of_In in *. intros H.
      apply Map_keys_set in H as [H|H]; [congruence | tauto].
Qed.

Lemma Map_mutate_fuse (k : WS) (f g : ClientData -> ClientData) (m : Registry) :
  Map_mutate k f (Map_mutate k g m) = Map_mutate k (fun c => f (g c)) m.
Proof.
  induction m as [|[j v] m IH]; simpl; [reflexivity|].
  destruct (Nat.eqb j k) eqn:E; simpl; rewrite E; [reflexivity | now rewrite IH].
Qed.

Lemma Map_mutate_ext (k : WS) (f g : ClientData -> ClientData) (m : Registry) :
  (forall c, f c = g c) -> Map_mutate k f m = Map_mutate k g m.
Proof.
  intros H. induction m as [|[j v] m IH]; simpl; [reflexivity|].
  destruct (Nat.eqb j k); [now rewrite H | now rewrite IH].
Qed.

Lemma Map_mutate_id (k : WS) (f : ClientData -> ClientData) (m : Registry) :
  (forall c, f c = c) -> Map_mutate k f m = m.
Proof.
  intros H. induction m as [|[j v] m IH]; simpl; [reflexivity|].
  destruct (Nat.eqb j k); [now rewrite H | now rewrite IH].
Qed.

Lemma with_feeds_id (c : ClientData) : with_feeds (fun s => s) c = c.
Proof. now destruct c. Qed.

(** ** Requests on an unknown handle, malformed requests, [unregister] *)

Ltac run_monad :=
  unfold bind, gets, lift, ret, modify, console_log, try_catch; simpl.

Section Properties.

Variable Number_toString : number -> string.

Lemma truthy_array (v : JSResult) : Array_isArray v = true -> truthy v = true.
Proof. destruct v as [[]|]; simpl; congruence. Qed.

Lemma not_array_guard (v : JSResult) :
  Array_isArray v = false -> negb (truthy v) || negb (Array_isArray v) = true.
Proof. intros ->. apply orb_true_r. Qed.

(** C9. A subscribe or unsubscribe request (in fact any message) that
    arrives for a socket that is not in the registry changes nothing and
    sends nothing: the dispatcher and both handlers return at once with the
    state they were given. *)
Theorem unknown_connection_is_noop (env : Env) (ws : WS) (message : JSValue)
  (clientId : nat) (st : State) :
  Map_get ws (subscriptions st) = None ->
  handleClientMessage Number_toString env ws message st = (Normal tt, st) /\
  handleSubscription Number_toString env ws message st = (Normal tt, st) /\
  handleUnsubscription env ws message st = (Normal tt, st) /\
  on_message Number_toString env ws clientId (Some message) st = (Normal tt, st).
Proof.
  intros H.
  unfold on_message, handleClientMessage, handleSubscription,
    handleUnsubscription.
  run_monad. rewrite H. auto.
Qed.

(** C8. [unregister] twice on one handle leaves the state that one call
    leaves, whatever the state; it sends nothing and logs nothing.  The same
    holds for the listeners that call it: ['close'] after ['error'] leaves
    the registry and the frames sent as ['error'] alone left them. *)
Theorem unregister_idempotent (ws : WS) (st : State) :
  unregister ws (unregister ws st) = unregister ws st /\
  calls_since st (unregister ws st) = [] /\
  console (unregister ws st) = console st /\
  (forall c c' code reason,
     let st1 := snd (on_error ws c st) in
     let st2 := snd (on_close ws c' code reason st1) in
     subscriptions st2 = subscriptions st1 /\ wire st2 = wire st1 /\
     wire st1 = wire st).
Proof.
  split; [|split; [|split]].
  - unfold unregister, set_subscriptions. simpl. now rewrite Map_delete_idem.
  - unfold calls_since. simpl. apply drop_all.
  - reflexivity.
  - intros c c' code reason. simpl. now rewrite Map_delete_idem.
Qed.

(** ** The subscribe loop *)

Lemma add_all_cons (n : number) (ids : list number) (s : FeedSet) :
  add_all (n :: ids) s = add_all ids (Set_add n s).
Proof. reflexivity. Qed.

Lemma snapshots_cons (env : Env) (prices : gmap string number) (n : number)
  (ids : list number) :
  snapshots Number_toString env prices (n :: ids) =
  match prices !! Number_toString n with
  | Some p => priceUpdate Number_toString env n p ::
              snapshots Number_toString env prices ids
  | None => snapshots Number_toString env prices ids
  end.
Proof. unfold snapshots. simpl. now destruct (prices !! Number_toString n). Qed.

(** What one run of the loop does, however it ends: the ids pushed, the
    calls of [send] (one snapshot for each pushed id that has a price, all
    to [ws]), the feed set of [ws], and nothing else. *)
Lemma subscribe_each_spec (env : Env) (ws : WS) (elems : list JSValue) :
  forall acc st r acc' st',
    subscribe_each Number_toString env ws elems acc st = (r, acc', st') ->
    exists ids calls,
      acc' = acc ++ ids /\
      wire st' = wire st ++ calls /\
      map frame calls = snapshots Number_toString env (currentPrices st) ids /\
      Forall (fun c => to c = ws /\ exists k, threw c = send_throws env k ws)
        calls /\
      subscriptions st' =
        Map_mutate ws (with_feeds (add_all ids)) (subscriptions st) /\
      currentPrices st' = currentPrices st /\
      connectionId st' = connectionId st /\
      listeners st' = listeners st /\
      console st' = console st /\
      (r = Normal tt -> ids = accepted_feedIds elems /\
                        Forall (fun c => threw c = false) calls).
Proof.
  induction elems as [|sub rest IH]; intros acc st r acc' st' Hrun.
  - simpl in Hrun. injection Hrun as <- <- <-.
    exists [], []. rewrite !app_nil_r. simpl.
    rewrite (Map_mutate_id _ _ _ with_feeds_id). repeat split; auto.
  - simpl in Hrun.
    assert (Hskip : accepted_feedId sub = None ->
                    subscribe_each Number_toString env ws rest acc st
                    = (r, acc', st') ->
                    exists ids calls,
      acc' = acc ++ ids /\
      wire st' = wire st ++ calls /\
      map frame calls = snapshots Number_toString env (currentPrices st) ids /\
      Forall (fun c => to c = ws /\ exists k, threw c = send_throws env k ws)
        calls /\
      subscriptions st' =
        Map_mutate ws (with_feeds (add_all ids)) (subscriptions st) /\
      currentPrices st' = currentPrices st /\
      connectionId st' = connectionId st /\
      listeners st' = listeners st /\
      console st' = console st /\
      (r = Normal tt -> ids = accepted_feedIds (sub :: rest) /\
                        Forall (fun c => threw c = false) calls)).
    { intros Hno Hrest. destruct (IH _ _ _ _ _ Hrest) as (ids & calls & H).
      exists ids, calls. unfold accepted_feedIds in *. simpl. rewrite Hno.
      exact H. }
    unfold subscribe_one in Hrun.
    destruct sub as [|b|n|s|l|props]; simpl in Hrun;
      try (apply Hskip; [reflexivity | exact Hrun]).
    + injection Hrun as <- <- <-. exists [], []. rewrite !app_nil_r. simpl.
      rewrite (Map_mutate_id _ _ _ with_feeds_id).
      repeat split; auto; discriminate.
    + destruct (own_property props "feedId") as [[|b|n|s|l|props']|] eqn:Hfid;
        simpl in Hrun;
        try (apply Hskip; [simpl; now rewrite Hfid | exact Hrun]).
      destruct (number_truthy n) eqn:Hn;
        [|apply Hskip; [simpl; now rewrite Hfid, Hn | exact Hrun]].
      assert (Hacc : accepted_feedId (JObj props) = Some n)
        by (simpl; now rewrite Hfid, Hn).
      destruct (currentPrices st !! Number_toString n) as [p|] eqn:Hp.
      * unfold ws_send in Hrun. simpl in Hrun.
        destruct (send_throws env (length (wire st)) ws) eqn:Hfailed.
        -- injection Hrun as <- <- <-.
           exists [n], [mkSendCall ws (priceUpdate Number_toString env n p) true].
           rewrite snapshots_cons, Hp. simpl.
           repeat split; auto; try discriminate.
           constructor; [|constructor]. split; [reflexivity|].
           exists (length (wire st)). now rewrite Hfailed.
        -- destruct (IH _ _ _ _ _ Hrun) as
             (ids & calls & Ha & Hw & Hf & Hto & Hs & Hc & Hi & Hl & Hco & Hn').
           simpl in *.
           exists (n :: ids),
             (mkSendCall ws (priceUpdate Number_toString env n p) false :: calls).
           rewrite snapshots_cons, Hp. simpl.
           rewrite Ha, Hw, Hf, Hs, <- !app_assoc. simpl.
           rewrite Map_mutate_fuse.
           repeat split; auto.
           ++ constructor; [|exact Hto]. split; [reflexivity|].
              exists (length (wire st)). now rewrite Hfailed.
           ++ unfold accepted_feedIds in *. simpl. rewrite Hfid, Hn.
              f_equal. now apply Hn'.
           ++ constructor; [reflexivity | now apply Hn'].
      * destruct (IH _ _ _ _ _ Hrun) as
          (ids & calls & Ha & Hw & Hf & Hto & Hs & Hc & Hi & Hl & Hco & Hn').
        simpl in *. exists (n :: ids), calls.
        rewrite snapshots_cons, Hp.
        rewrite Ha, Hw, Hf, Hs, <- !app_assoc. simpl.
        rewrite Map_mutate_fuse.
        repeat split; auto.
        -- unfold accepted_feedIds in *. simpl. rewrite Hfid, Hn.
           f_equal. now apply Hn'.
        -- now apply Hn'.
Qed.

(** The loop runs to its end when no element is [null] and no send to
    [ws] throws. *)
Lemma subscribe_each_completes (env : Env) (ws : WS) (elems : list JSValue) :
  forallb (fun e => negb (is_null e)) elems = true ->
  (forall k, send_throws env k ws = false) ->
  forall acc st,
    fst (fst (subscribe_each Number_toString env ws elems acc st)) = Normal tt.
Proof.
  intros Hnull Hsend.
  induction elems as [|sub rest IH]; intros acc st; [reflexivity|].
  simpl in Hnull. apply andb_true_iff in Hnull as [Hsub Hrest].
  specialize (IH Hrest). simpl. unfold subscribe_one.
  destruct sub as [|b|n|s|l|props]; simpl; try apply IH; [discriminate|].
  destruct (own_property props "feedId") as [[|b|n|s|l|props']|];
    simpl; try apply IH.
  destruct (number_truthy n); [|apply IH].
  destruct (_ !! _); [|apply IH].
  unfold ws_send. simpl. rewrite Hsend. apply IH.
Qed.

Lemma calls_since_app (st st' : State) (calls : list SendCall) :
  wire st' = wire st ++ calls -> calls_since st st' = calls.
Proof. unfold calls_since. intros ->. apply drop_app_length. Qed.

Lemma Set_has_add_all (n : number) (ids : list number) (s : FeedSet) :
  Set_has n (add_all ids s) = Set_has n s || Set_has n ids.
Proof.
  revert s. induction ids as [|m ids IH]; intros s.
  - simpl. now rewrite orb_false_r.
  - rewrite add_all_cons, IH, Set_has_add. simpl. now rewrite orb_assoc.
Qed.

Lemma get_prop_not_null (message : JSValue) (key : string) (v : JSResult) :
  get_prop message key = Normal v ->
  forall key', exists v', get_prop message key' = Normal v'.
Proof. destruct message; simpl; intros H key'; try discriminate; eauto. Qed.

(** [handleSubscription] on a registered connection and an array. *)
Lemma handleSubscription_array (env : Env) (ws : WS) (message : JSValue)
  (st : State) (c : ClientData) (elems : list JSValue) (sid : JSResult) :
  Map_get ws (subscriptions st) = Some c ->
  get_prop message "subscriptions" = Normal (Some (JArr elems)) ->
  get_prop message "subscriptionId" = Normal sid ->
  handleSubscription Number_toString env ws message st =
  match subscribe_each Number_toString env ws elems [] st with
  | (Normal _, acc, st1) =>
      let failed := send_throws env (length (wire st1)) ws in
      let st2 :=
        push_wire (mkSendCall ws (MSubscribed (or_null sid) acc) failed) st1 in
      if failed then (Throw SendError, st2)
      else (Normal tt, push_console (LogSubscribed (id c) acc) st2)
  | (Throw e, _, st1) => (Throw e, st1)
  end.
Proof.
  intros Hreg Hsubs Hsid. unfold handleSubscription. run_monad.
  rewrite Hreg, Hsubs. simpl.
  destruct (subscribe_each _ _ _ _ _ _) as [[[[]|e] acc] st1]; [|reflexivity].
  rewrite Hsid. unfold ws_send. simpl.
  now destruct (send_throws env (length (wire st1)) ws).
Qed.

(** What a subscribe request that runs to its end does to the registry,
    and the objects it hands to [JSON.stringify]. *)
Lemma handleSubscription_accepts (env : Env) (ws : WS) (message : JSValue)
  (st : State) (c : ClientData) (elems : list JSValue) :
  Map_get ws (subscriptions st) = Some c ->
  get_prop message "subscriptions" = Normal (Some (JArr elems)) ->
  forallb (fun e => negb (is_null e)) elems = true ->
  (forall k, send_throws env k ws = false) ->
  let ids := accepted_feedIds elems in
  exists st' sid,
    get_prop message "subscriptionId" = Normal sid /\
    handleSubscription Number_toString env ws message st = (Normal tt, st') /\
    subscriptions st' =
      Map_mutate ws (with_feeds (add_all ids)) (subscriptions st) /\
    feeds_of ws st' = add_all ids (subscribedFeeds c) /\
    (forall n, Set_has n (feeds_of ws st') =
               Set_has n (subscribedFeeds c) || Set_has n ids) /\
    (forall k, k <> ws ->
               Map_get k (subscriptions st') = Map_get k (subscriptions st)) /\
    calls_since st st' =
      map (fun f => mkSendCall ws f false)
        (snapshots Number_toString env (currentPrices st) ids ++
         [MSubscribed (or_null sid) ids]) /\
    (forall n s, Set_has n s = true -> Set_add n s = s).
Proof.
  intros Hreg Hsubs Hnull Hsend ids.
  destruct (get_prop_not_null _ _ _ Hsubs "subscriptionId") as [sid Hsid].
  pose proof (subscribe_each_completes env ws elems Hnull Hsend [] st) as Hdone.
  rewrite (handleSubscription_array _ _ _ _ _ _ _ Hreg Hsubs Hsid).
  destruct (subscribe_each _ _ _ _ _ _) as [[r acc] st1] eqn:Hloop.
  simpl in Hdone. subst r.
  destruct (subscribe_each_spec _ _ _ _ _ _ _ _ Hloop) as
    (ids' & calls & Ha & Hw & Hf & Hto & Hs & Hc & Hi & Hl & Hco & Hn).
  destruct (Hn eq_refl) as [-> Hok]. simpl in Ha. subst acc. fold ids.
  simpl. rewrite Hsend.
  eexists _, sid. split; [exact Hsid|]. split; [reflexivity|]. simpl.
  assert (Hfeeds : forall m, m = Map_mutate ws (with_feeds (add_all ids))
                                 (subscriptions st) ->
                   match Map_get ws m with
                   | Some c0 => subscribedFeeds c0
                   | None => []
                   end = add_all ids (subscribedFeeds c)).
  { intros m ->. rewrite Map_get_mutate, Nat.eqb_refl, Hreg. reflexivity. }
  split; [exact Hs|]. unfold feeds_of. simpl.
  split; [now apply Hfeeds|].
  split; [intros n; rewrite (Hfeeds _ Hs); apply Set_has_add_all|].
  split.
  { intros k Hk. rewrite Hs, Map_get_mutate.
    destruct (Nat.eqb_spec ws k); [congruence | reflexivity]. }
  split; [|exact Set_add_present].
  apply calls_since_app. simpl. rewrite Hw, <- app_assoc. f_equal.
  rewrite map_app. simpl. f_equal. unfold ids. rewrite <- Hf.
  clear -Hto Hok. induction calls as [|[w f t] calls IH]; [reflexivity|].
  inversion Hto as [|? ? [Hw _] Hto']; inversion Hok as [|? ? Ht Hok']; subst.
  simpl in *. subst. f_equal. now apply IH.
Qed.

Lemma accepted_feedIds_truthy (elems : list JSValue) :
  Forall (fun n => number_truthy n = true) (accepted_feedIds elems).
Proof.
  unfold accepted_feedIds.
  induction elems as [|e elems IH]; simpl; [constructor|].
  destruct e as [| | | | |props]; simpl; try exact IH.
  destruct (own_property props "feedId") as [[| |n| | |]|]; try exact IH.
  destruct (number_truthy n) eqn:Hn; [|exact IH]. now constructor.
Qed.

(** C3, as the code has it.  On a registered connection, for a subscribe
    request whose [subscriptions] is an array without a [null] element, and
    when no send to the connection throws: the handler ends normally; the
    ids accepted are those of the elements whose [feedId] is a number other
    than 0 and NaN ([accepted_feedIds], in the order of the request), each
    is added to the feed set of the connection and the acknowledgment lists
    them in that order after the snapshots; every other element is passed
    over (no error frame); no other connection changes; and adding an id
    that is in the set leaves the set as it is.  In the frame that the
    socket gets, the acknowledgment lists the accepted ids in that order,
    each as the number it is except that an infinite id (the text [1e999])
    is written [null]. *)
Theorem subscribe_adds_accepted (env : Env) (ws : WS) (message : JSValue)
  (st : State) (c : ClientData) (elems : list JSValue) :
  Map_get ws (subscriptions st) = Some c ->
  get_prop message "subscriptions" = Normal (Some (JArr elems)) ->
  forallb (fun e => negb (is_null e)) elems = true ->
  (forall k, send_throws env k ws = false) ->
  let ids := accepted_feedIds elems in
  exists st' sid,
    get_prop message "subscriptionId" = Normal sid /\
    handleSubscription Number_toString env ws message st = (Normal tt, st') /\
    subscriptions st' =
      Map_mutate ws (with_feeds (add_all ids)) (subscriptions st) /\
    feeds_of ws st' = add_all ids (subscribedFeeds c) /\
    (forall n, Set_has n (feeds_of ws st') =
               Set_has n (subscribedFeeds c) || Set_has n ids) /\
    (forall k, k <> ws ->
               Map_get k (subscriptions st') = Map_get k (subscriptions st)) /\
    calls_since st st' =
      map (fun f => mkSendCall ws f false)
        (snapshots Number_toString env (currentPrices st) ids ++
         [MSubscribed (or_null sid) ids]) /\
    (forall n s, Set_has n s = true -> Set_add n s = s) /\
    map sent (calls_since st st') =
      map JSON_stringify
        (snapshots Number_toString env (currentPrices st) ids) ++
      [FSubscribed (stringify_value (or_null sid)) (map wire_number ids)] /\
    Forall (fun n => wire_number n =
                     match n with
                     | S754_infinity _ => None
                     | _ => Some n
                     end) ids.
Proof.
  intros Hreg Hsubs Hnull Hsend ids.
  destruct (handleSubscription_accepts env ws message st c elems
              Hreg Hsubs Hnull Hsend)
    as (st' & sid & H1 & H2 & H3 & H4 & H5 & H6 & H7 & H8).
  exists st', sid. fold ids in H3, H4, H5, H7.
  repeat (split; [assumption|]). split.
  - rewrite H7, map_map, map_app. reflexivity.
  - eapply Forall_impl; [apply accepted_feedIds_truthy|].
    intros n Hn. destruct n; simpl in *; try discriminate; reflexivity.
Qed.

(** The calls of [send] of one run of [handleSubscription] on an array. *)
Lemma handleSubscription_calls (env : Env) (ws : WS) (message : JSValue)
  (st : State) (c : ClientData) (elems : list JSValue) (sid : JSResult) :
  Map_get ws (subscriptions st) = Some c ->
  get_prop message "subscriptions" = Normal (Some (JArr elems)) ->
  get_prop message "subscriptionId" = Normal sid ->
  let loop := subscribe_each Number_toString env ws elems [] st in
  let accepted := snd (fst loop) in
  let st' := snd (handleSubscription Number_toString env ws message st) in
  Forall (fun call => to call = ws) (calls_since st st') /\
  map frame (calls_since st st') =
    snapshots Number_toString env (currentPrices st) accepted ++
    match fst (fst loop) with
    | Normal _ => [MSubscribed (or_null sid) accepted]
    | Throw _ => []
    end.
Proof.
  intros Hreg Hsubs Hsid. simpl.
  rewrite (handleSubscription_array _ _ _ _ _ _ _ Hreg Hsubs Hsid).
  destruct (subscribe_each _ _ _ _ _ _) as [[r acc] st1] eqn:Hloop.
  destruct (subscribe_each_spec _ _ _ _ _ _ _ _ Hloop) as
    (ids & calls & Ha & Hw & Hf & Hto & Hs & Hc & Hi & Hl & Hco & Hn).
  simpl in Ha. subst acc. simpl.
  assert (Hto' : Forall (fun call => to call = ws) calls).
  { eapply Forall_impl; [exact Hto|]. now intros x [H _]. }
  destruct r as [[]|e].
  - destruct (send_throws env (length (wire st1)) ws) eqn:Hfail; simpl;
      (erewrite calls_since_app
         by (simpl; rewrite Hw, <- app_assoc; reflexivity));
      rewrite map_app, Hf; simpl;
      (split; [apply Forall_app; split; [exact Hto' | now repeat constructor]
              | reflexivity]).
  - simpl. rewrite (calls_since_app _ _ _ Hw), app_nil_r. auto.
Qed.

(** C4. In a subscribe request on a registered connection, the calls of
    [send] are all to that connection and their frames are, in order: for
    each accepted feed id (each id pushed to [subscribedFeeds], in the order
    of the request) that has an entry in [currentPrices], one [priceUpdate]
    with that single feed and its current price, and none for an accepted
    id without an entry; then, when the loop ran to its end, the
    [subscribed] confirmation.  Every snapshot so precedes the
    confirmation. *)
Theorem snapshot_before_confirmation (env : Env) (ws : WS) (message : JSValue)
  (st : State) (c : ClientData) (elems : list JSValue) :
  Map_get ws (subscriptions st) = Some c ->
  get_prop message "subscriptions" = Normal (Some (JArr elems)) ->
  let loop := subscribe_each Number_toString env ws elems [] st in
  let accepted := snd (fst loop) in
  let st' := snd (handleSubscription Number_toString env ws message st) in
  exists sid,
    get_prop message "subscriptionId" = Normal sid /\
    Forall (fun call => to call = ws) (calls_since st st') /\
    map frame (calls_since st st') =
      omap (fun n =>
              match currentPrices st !! Number_toString n with
              | Some p =>
                  Some (MPriceUpdate (now env)
                          [mkUpdate n (Number_toString p)])
              | None => None
              end) accepted ++
      match fst (fst loop) with
      | Normal _ => [MSubscribed (or_null sid) accepted]
      | Throw _ => []
      end /\
    (fst (fst loop) = Normal tt -> accepted = accepted_feedIds elems).
Proof.
  intros Hreg Hsubs loop accepted st'.
  destruct (get_prop_not_null _ _ _ Hsubs "subscriptionId") as [sid Hsid].
  exists sid. split; [exact Hsid|].
  destruct (handleSubscription_calls env ws message st c elems sid
              Hreg Hsubs Hsid) as [Hto Hframes].
  split; [exact Hto|]. split; [exact Hframes|].
  intros Hdone. subst accepted loop.
  destruct (subscribe_each _ _ _ _ _ _) as [[r acc] st1] eqn:Hloop.
  destruct (subscribe_each_spec _ _ _ _ _ _ _ _ Hloop) as
    (ids & calls & Ha & _ & _ & _ & _ & _ & _ & _ & _ & Hn).
  simpl in *. subst acc. now apply Hn.
Qed.

Lemma snapshots_are_updates (env : Env) (prices : gmap string number)
  (ids : list number) (x : JSValue) (feeds : list number) :
  ~ In (MSubscribed x feeds) (snapshots Number_toString env prices ids).
Proof.
  induction ids as [|n ids IH]; [auto|].
  rewrite snapshots_cons. destruct (prices !! Number_toString n); [|exact IH].
  intros [H|H]; [discriminate | auto].
Qed.

Lemma truthy_false_cases (v : JSResult) :
  truthy v = false <->
  v = None \/ v = Some JNull \/ v = Some (JBool false) \/ v = Some (JStr "") \/
  exists n, v = Some (JNum n) /\ (is_zero n = true \/ n = S754_nan).
Proof.
  split.
  - destruct v as [[|[]|n|s|l|props]|]; simpl; intros H; try discriminate; auto.
    + do 4 right. exists n. split; [reflexivity|].
      destruct n; simpl in *; try discriminate; auto.
    + do 3 right. left. apply negb_false_iff, String.eqb_eq in H. now subst.
  - intros [->|[->|[->|[->|(n & -> & [H| ->])]]]]; try reflexivity.
    destruct n; simpl in *; try discriminate; reflexivity.
Qed.

(** C10. Every [subscribed] acknowledgment that [handleSubscription] sends
    carries the [subscriptionId] of the request when that value is truthy,
    and [null] when it is falsy; the falsy values are exactly: absent,
    [null], [false], the empty string, and the numbers 0, -0 and NaN.  When
    the loop over the elements runs to its end an acknowledgment is sent. *)
Theorem ack_echoes_truthy_subscriptionId (env : Env) (ws : WS)
  (message : JSValue) (st : State) (c : ClientData) (elems : list JSValue)
  (sid : JSResult) :
  Map_get ws (subscriptions st) = Some c ->
  get_prop message "subscriptions" = Normal (Some (JArr elems)) ->
  get_prop message "subscriptionId" = Normal sid ->
  let loop := subscribe_each Number_toString env ws elems [] st in
  let st' := snd (handleSubscription Number_toString env ws message st) in
  (forall call x feeds,
     In call (calls_since st st') -> frame call = MSubscribed x feeds ->
     (truthy sid = true -> sid = Some x) /\
     (truthy sid = false -> x = JNull)) /\
  (fst (fst loop) = Normal tt ->
   exists call x feeds,
     In call (calls_since st st') /\ frame call = MSubscribed x feeds) /\
  (truthy sid = false <->
   sid = None \/ sid = Some JNull \/ sid = Some (JBool false) \/
   sid = Some (JStr "") \/
   exists n, sid = Some (JNum n) /\ (is_zero n = true \/ n = S754_nan)).
Proof.
  intros Hreg Hsubs Hsid loop st'.
  destruct (handleSubscription_calls env ws message st c elems sid
              Hreg Hsubs Hsid) as [_ Hframes].
  fold loop st' in Hframes.
  split; [|split; [|apply truthy_false_cases]].
  - intros call x feeds Hin Hframe.
    assert (Hmem : In (MSubscribed x feeds) (map frame (calls_since st st')))
      by (rewrite <- Hframe; now apply in_map).
    rewrite Hframes in Hmem. apply in_app_or in Hmem as [Hmem|Hmem].
    + now apply snapshots_are_updates in Hmem.
    + destruct (fst (fst loop)); [|destruct Hmem].
      destruct Hmem as [Hack|[]]. injection Hack as Hx _. subst x.
      destruct sid as [v|]; unfold or_null.
      * destruct (truthy (Some v)); split; intros; congruence.
      * split; [discriminate | reflexivity].
  - intros Hdone. rewrite Hdone in Hframes.
    assert (Hmem : In (MSubscribed (or_null sid) (snd (fst loop)))
                     (map frame (calls_since st st')))
      by (rewrite Hframes; apply in_or_app; right; now left).
    apply in_map_iff in Hmem as (call & Hcall & Hin). eauto.
Qed.

(** ** The unsubscribe loop *)

Lemma Set_has_compat (n m : number) (s : FeedSet) :
  sameValueZero n m = true -> Set_has n s = Set_has m s.
Proof.
  intros H. induction s as [|y s IH]; simpl; [reflexivity|].
  rewrite IH. f_equal.
  rewrite (sameValueZero_sym y n), (sameValueZero_sym y m).
  now apply sameValueZero_compat.
Qed.

Lemma Map_mutate_same (k : WS) (f : ClientData -> ClientData) (m : Registry)
  (c : ClientData) :
  Map_get k m = Some c -> f c = c -> Map_mutate k f m = m.
Proof.
  intros Hget Hf. induction m as [|[j v] m IH]; simpl in *; [reflexivity|].
  destruct (Nat.eqb j k).
  - injection Hget as ->. now rewrite Hf.
  - now rewrite IH.
Qed.

Lemma set_subscriptions_same (st : State) :
  set_subscriptions (fun m => m) st = st.
Proof. now destruct st. Qed.

Lemma unsubscribe_each_result (ws : WS) (elems : list JSValue) :
  forall acc st c,
    Map_get ws (subscriptions st) = Some c ->
    unsubscribe_each ws elems acc st =
    (acc ++ fst (unsubscribe_result elems (subscribedFeeds c)),
     set_subscriptions
       (Map_mutate ws
          (with_feeds
             (fun _ => snd (unsubscribe_result elems (subscribedFeeds c)))))
       st).
Proof.
  induction elems as [|v rest IH]; intros acc st c Hreg.
  - simpl. rewrite app_nil_r. f_equal.
    unfold set_subscriptions. destruct st as [m i p l w o]; simpl in *.
    f_equal. symmetry. apply (Map_mutate_same _ _ _ c Hreg). now destruct c.
  - assert (Hskip : unsubscribe_one ws v acc st = (acc, st) ->
                    unsubscribe_result (v :: rest) (subscribedFeeds c) =
                    unsubscribe_result rest (subscribedFeeds c) ->
                    unsubscribe_each ws (v :: rest) acc st =
    (acc ++ fst (unsubscribe_result (v :: rest) (subscribedFeeds c)),
     set_subscriptions
       (Map_mutate ws
          (with_feeds
             (fun _ => snd (unsubscribe_result (v :: rest) (subscribedFeeds c)))))
       st)).
    { intros H1 H2. cbn [unsubscribe_each]. rewrite H1, H2. now apply IH. }
    destruct v as [|b|n|s|l|props];
      try (apply Hskip; [unfold unsubscribe_one; now destruct (Map_get _ _)
                        | reflexivity]).
    destruct (Set_has n (subscribedFeeds c)) eqn:Hhas.
    + cbn [unsubscribe_each unsubscribe_one unsubscribe_result].
      rewrite Hreg, Hhas.
      erewrite IH; cycle 1.
      { simpl. rewrite Map_get_mutate, Nat.eqb_refl, Hreg. reflexivity. }
      simpl.
      destruct (unsubscribe_result rest (Set_delete n (subscribedFeeds c)))
        as [r s'] eqn:Hres.
      simpl. rewrite <- app_assoc. f_equal.
      unfold set_subscriptions. simpl. f_equal.
      rewrite Map_mutate_fuse. apply Map_mutate_ext. reflexivity.
    + apply Hskip.
      * unfold unsubscribe_one. now rewrite Hreg, Hhas.
      * simpl. now rewrite Hhas.
Qed.

(** The ids removed are the listed ids that were in the set, each once and
    in the order of the request; the set keeps the ids that are not
    listed. *)
Lemma unsubscribe_result_spec (elems : list JSValue) :
  forall s,
    let removed := fst (unsubscribe_result elems s) in
    let s' := snd (unsubscribe_result elems s) in
    (forall n, Set_has n removed = listed n elems && Set_has n s) /\
    (forall n, Set_has n s' = Set_has n s && negb (listed n elems)) /\
    distinct_ids removed = true /\
    sublist (map JNum removed) elems.
Proof.
  induction elems as [|v rest IH]; intros s; simpl.
  - repeat split; auto using sublist_nil.
    intros n. now rewrite andb_true_r.
  - assert (Hskip : (forall n, (match v with
                                | JNum m => sameValueZero m n
                                | _ => false
                                end) = true -> Set_has n s = false) ->
      (forall n, Set_has n (fst (unsubscribe_result rest s)) =
                 (match v with JNum m => sameValueZero m n | _ => false end
                  || listed n rest) && Set_has n s) /\
      (forall n, Set_has n (snd (unsubscribe_result rest s)) =
                 Set_has n s &&
                 negb (match v with JNum m => sameValueZero m n | _ => false end
                       || listed n rest)) /\
      distinct_ids (fst (unsubscribe_result rest s)) = true /\
      sublist (map JNum (fst (unsubscribe_result rest s))) (v :: rest)).
    { intros Hv. destruct (IH s) as (H1 & H2 & H3 & H4).
      repeat split; auto using sublist_cons.
      - intros n. rewrite H1.
        destruct (match v with JNum m => sameValueZero m n | _ => false end)
          eqn:E; [|reflexivity].
        rewrite (Hv n E). now rewrite !andb_false_r.
      - intros n. rewrite H2.
        destruct (match v with JNum m => sameValueZero m n | _ => false end)
          eqn:E; [|reflexivity].
        rewrite (Hv n E). reflexivity. }
    destruct v as [|b|m|str|l|props]; try (apply Hskip; discriminate).
    destruct (Set_has m s) eqn:Hm.
    + destruct (IH (Set_delete m s)) as (H1 & H2 & H3 & H4).
      destruct (unsubscribe_result rest (Set_delete m s)) as [r s'] eqn:Hres.
      simpl in *. repeat split.
      * intros n. rewrite H1, Set_has_delete.
        destruct (sameValueZero m n) eqn:E; simpl.
        -- now rewrite <- (Set_has_compat m n s E), Hm.
        -- now rewrite andb_true_r.
      * intros n. rewrite H2, Set_has_delete.
        destruct (sameValueZero m n); simpl;
          [now rewrite !andb_false_r | now rewrite andb_true_r].
      * rewrite H3, andb_true_r, H1, Set_has_delete, sameValueZero_refl.
        simpl. now rewrite !andb_false_r.
      * now apply sublist_skip.
    + apply Hskip. intros n E. now rewrite <- (Set_has_compat m n s E).
Qed.

(** What an unsubscribe request does to the feed set, and the object it
    hands to [JSON.stringify]. *)
Lemma handleUnsubscription_removes (env : Env) (ws : WS) (message : JSValue)
  (st : State) (c : ClientData) (elems : list JSValue) :
  Map_get ws (subscriptions st) = Some c ->
  get_prop message "feedIds" = Normal (Some (JArr elems)) ->
  let result := handleUnsubscription env ws message st in
  let st' := snd result in
  let failed := send_throws env (length (wire st)) ws in
  exists removed,
    fst result = (if failed then Throw SendError else Normal tt) /\
    calls_since st st' = [mkSendCall ws (MUnsubscribed removed) failed] /\
    (forall n, Set_has n removed =
               listed n elems && Set_has n (subscribedFeeds c)) /\
    distinct_ids removed = true /\
    sublist (map JNum removed) elems /\
    (forall n, Set_has n (feeds_of ws st') =
               Set_has n (subscribedFeeds c) && negb (listed n elems)) /\
    (forall k, k <> ws ->
               Map_get k (subscriptions st') = Map_get k (subscriptions st)).
Proof.
  intros Hreg Hids. simpl.
  unfold handleUnsubscription. run_monad. rewrite Hreg, Hids. simpl.
  rewrite (unsubscribe_each_result ws elems [] st c Hreg). simpl.
  destruct (unsubscribe_result_spec elems (subscribedFeeds c))
    as (H1 & H2 & H3 & H4).
  exists (fst (unsubscribe_result elems (subscribedFeeds c))).
  unfold ws_send. simpl.
  assert (Hget : forall k,
    Map_get k (Map_mutate ws
       (with_feeds (fun _ => snd (unsubscribe_result elems (subscribedFeeds c))))
       (subscriptions st)) =
    if Nat.eqb ws k
    then Some (with_feeds
                 (fun _ => snd (unsubscribe_result elems (subscribedFeeds c))) c)
    else Map_get k (subscriptions st)).
  { intros k. rewrite Map_get_mutate.
    destruct (Nat.eqb_spec ws k) as [<-|]; [now rewrite Hreg | reflexivity]. }
  destruct (send_throws env (length (wire st)) ws); simpl;
    (split; [reflexivity|]);
    (split; [apply calls_since_app; reflexivity|]);
    (split; [exact H1|]); (split; [exact H3|]); (split; [exact H4|]);
    unfold feeds_of; simpl; (split; [|intros k Hk; rewrite Hget;
      destruct (Nat.eqb_spec ws k); [congruence | reflexivity]]);
    intros n; rewrite Hget, Nat.eqb_refl; simpl; apply H2.
Qed.

Lemma wire_number_spec (n : number) :
  (wire_number n = None <-> n = S754_nan \/ exists b, n = S754_infinity b) /\
  (forall s m e, n = S754_finite s m e -> wire_number n = Some n).
Proof.
  split; [|now intros s m e ->].
  destruct n; simpl; split; try discriminate; eauto;
    intros [H|[b H]]; discriminate.
Qed.

(** C5, as the code has it.  An unsubscribe request on a registered
    connection whose [feedIds] is an array makes one call of [send], the
    acknowledgment, whose list holds exactly the listed ids that were in
    the feed set of the connection (each once, in the order of the
    request); those ids are removed from the set, the other ids of the set
    stay, and no other connection changes.  In the frame that the socket
    gets, each removed id is written as the number it is, except that a
    removed id that is not finite (Infinity, subscribed as [1e999]) is
    written [null]. *)
Theorem unsubscribe_removes_present (env : Env) (ws : WS) (message : JSValue)
  (st : State) (c : ClientData) (elems : list JSValue) :
  Map_get ws (subscriptions st) = Some c ->
  get_prop message "feedIds" = Normal (Some (JArr elems)) ->
  let result := handleUnsubscription env ws message st in
  let st' := snd result in
  let failed := send_throws env (length (wire st)) ws in
  exists removed,
    fst result = (if failed then Throw SendError else Normal tt) /\
    calls_since st st' = [mkSendCall ws (MUnsubscribed removed) failed] /\
    (forall n, Set_has n removed =
               listed n elems && Set_has n (subscribedFeeds c)) /\
    distinct_ids removed = true /\
    sublist (map JNum removed) elems /\
    (forall n, Set_has n (feeds_of ws st') =
               Set_has n (subscribedFeeds c) && negb (listed n elems)) /\
    (forall k, k <> ws ->
               Map_get k (subscriptions st') = Map_get k (subscriptions st)) /\
    map sent (calls_since st st') = [FUnsubscribed (map wire_number removed)] /\
    (forall n,
       (wire_number n = None <->
        n = S754_nan \/ exists b, n = S754_infinity b) /\
       (forall s m e, n = S754_finite s m e -> wire_number n = Some n)).
Proof.
  intros Hreg Hids.
  destruct (handleUnsubscription_removes env ws message st c elems Hreg Hids)
    as (removed & H1 & H2 & H3 & H4 & H5 & H6 & H7).
  exists removed. cbv zeta in *.
  repeat (split; [assumption|]). split; [|apply wire_number_spec].
  rewrite H2. reflexivity.
Qed.

(** ** The broadcast loop *)

Lemma broadcast_callback_step (env : Env) (feedId : number) (msg : ServerMsg)
  (c : ClientData) (k : WS) (st : State) :
  Map_get k (subscriptions st) = Some c ->
  broadcast_callback env feedId msg c k st =
  if targeted env feedId (subscriptions st) k then
    if send_throws env (length (wire st)) k then
      (Normal tt,
       unregister k
         (push_console (LogSendFailed (id c))
            (push_wire (mkSendCall k msg true) st)))
    else (Normal tt, push_wire (mkSendCall k msg false) st)
  else (Normal tt, st).
Proof.
  intros Hget. unfold broadcast_callback, targeted. rewrite Hget.
  destruct (is_OPEN (readyState env k) && Set_has feedId (subscribedFeeds c));
    [|reflexivity].
  unfold ws_send. run_monad.
  now destruct (send_throws env (length (wire st)) k).
Qed.

Lemma targeted_delete (env : Env) (feedId : number) (m : Registry) (k k' : WS) :
  k <> k' ->
  targeted env feedId (Map_delete k m) k' = targeted env feedId m k'.
Proof.
  intros Hk. unfold targeted. rewrite Map_get_delete.
  destruct (Nat.eqb_spec k k'); [congruence | reflexivity].
Qed.

Lemma broadcast_loop (env : Env) (feedId : number) (msg : ServerMsg)
  (ks : list WS) :
  NoDup ks ->
  forall st,
  exists calls st',
    forEach_keys ks (broadcast_callback env feedId msg) st = (Normal tt, st') /\
    wire st' = wire st ++ calls /\
    map to calls = List.filter (targeted env feedId (subscriptions st)) ks /\
    Forall (fun c => frame c = msg /\
                     exists i, threw c = send_throws env i (to c)) calls /\
    subscriptions st' = remove_failed calls (subscriptions st) /\
    currentPrices st' = currentPrices st /\
    connectionId st' = connectionId st /\
    listeners st' = listeners st.
Proof.
  induction ks as [|k ks IH]; intros Hnd st.
  - exists [], st. simpl. rewrite app_nil_r. repeat split; auto.
  - apply NoDup_cons in Hnd as [Hk Hnd]. specialize (IH Hnd).
    assert (Hstay : targeted env feedId (subscriptions st) k = false ->
                    forEach_keys (k :: ks) (broadcast_callback env feedId msg) st
                    = forEach_keys ks (broadcast_callback env feedId msg) st).
    { intros Ht. simpl. unfold bind.
      destruct (Map_get k (subscriptions st)) as [c|] eqn:Hget; [|reflexivity].
      now rewrite (broadcast_callback_step _ _ _ _ _ _ Hget), Ht. }
    destruct (targeted env feedId (subscriptions st) k) eqn:Ht.
    + assert (Hget : exists c, Map_get k (subscriptions st) = Some c).
      { unfold targeted in Ht. destruct (Map_get k (subscriptions st));
          [eauto | discriminate]. }
      destruct Hget as [c Hget]. simpl. unfold bind.
      rewrite Hget, (broadcast_callback_step _ _ _ _ _ _ Hget), Ht.
      destruct (send_throws env (length (wire st)) k) eqn:Hfail.
      * match goal with
        | |- context [forEach_keys ks _ ?s] => destruct (IH s) as
            (calls & st' & Hrun & Hw & Hto & Hfr & Hs & Hc & Hi & Hl)
        end.
        exists (mkSendCall k msg true :: calls), st'. simpl in *.
        rewrite Hrun, Hw, <- app_assoc, Hto.
        repeat split; auto.
        -- f_equal. apply List.filter_ext_in. intros k' Hk'.
           apply targeted_delete. intros ->. apply Hk.
           now apply list_elem_of_In.
        -- constructor; [|exact Hfr]. split; [reflexivity|].
           exists (length (wire st)). symmetry. exact Hfail.
      * match goal with
        | |- context [forEach_keys ks _ ?s] => destruct (IH s) as
            (calls & st' & Hrun & Hw & Hto & Hfr & Hs & Hc & Hi & Hl)
        end.
        exists (mkSendCall k msg false :: calls), st'. simpl in *.
        rewrite Hrun, Hw, <- app_assoc, Hto.
        repeat split; auto.
        constructor; [|exact Hfr]. split; [reflexivity|].
        exists (length (wire st)). symmetry. exact Hfail.
    + rewrite (Hstay eq_refl). simpl. rewrite Ht.
      destruct (IH st) as (calls & st' & H). exists calls, st'. exact H.
Qed.

Lemma Map_get_head (k : WS) (v : ClientData) (m : Registry) :
  Map_get k ((k, v) :: m) = Some v.
Proof. simpl. now rewrite Nat.eqb_refl. Qed.

Lemma targeted_keys (env : Env) (feedId : number) (m : Registry) :
  Map_wf m ->
  List.filter (targeted env feedId m) (Map_keys m) =
  List.filter (fun ws => is_OPEN (readyState env ws))
    (map fst
       (List.filter (fun e => Set_has feedId (subscribedFeeds (snd e))) m)).
Proof.
  unfold Map_wf. induction m as [|[k v] m IH]; intros Hwf; [reflexivity|].
  simpl in Hwf. apply NoDup_cons in Hwf as [Hk Hwf].
  cbn [Map_keys map fst List.filter].
  assert (Hrest : List.filter (targeted env feedId ((k, v) :: m)) (map fst m) =
                  List.filter (targeted env feedId m) (Map_keys m)).
  { apply List.filter_ext_in. intros k' Hk'. unfold targeted. simpl.
    destruct (Nat.eqb_spec k k') as [->|]; [|reflexivity].
    exfalso. apply Hk. now apply list_elem_of_In. }
  unfold targeted at 1. rewrite Map_get_head. simpl snd.
  rewrite Hrest, (IH Hwf).
  destruct (Set_has feedId (subscribedFeeds v)); simpl;
    [|now rewrite andb_false_r].
  now rewrite andb_true_r.
Qed.

Lemma Map_wf_remove_failed (calls : list SendCall) (m : Registry) :
  Map_wf m -> Map_wf (remove_failed calls m).
Proof.
  revert m. induction calls as [|c calls IH]; intros m Hwf; [exact Hwf|].
  simpl. apply IH. destruct (threw c); [now apply Map_wf_delete | exact Hwf].
Qed.

Lemma Map_get_remove_failed (calls : list SendCall) (m : Registry) (k : WS) :
  Map_get k (remove_failed calls m) =
  if existsb (fun c => Nat.eqb (to c) k && threw c) calls then None
  else Map_get k m.
Proof.
  revert m. induction calls as [|c calls IH]; intros m; [reflexivity|].
  simpl. rewrite IH.
  destruct (existsb _ calls); [now rewrite orb_true_r|]. rewrite orb_false_r.
  destruct (threw c); [|now rewrite andb_false_r].
  rewrite andb_true_r. apply Map_get_delete.
Qed.

(** One run of [broadcastPriceUpdate]. *)
Lemma broadcast_spec (env : Env) (feedId price : number) (st : State) :
  Map_wf (subscriptions st) ->
  exists calls st',
    broadcastPriceUpdate Number_toString env feedId price st = (Normal tt, st') /\
    wire st' = wire st ++ calls /\
    map to calls = recipients env feedId st /\
    Forall (fun c => frame c = priceUpdate Number_toString env feedId price /\
                     exists i, threw c = send_throws env i (to c)) calls /\
    subscriptions st' = remove_failed calls (subscriptions st) /\
    currentPrices st' = currentPrices st /\
    connectionId st' = connectionId st /\
    listeners st' = listeners st.
Proof.
  intros Hwf. unfold broadcastPriceUpdate, subscriptions_forEach.
  destruct (broadcast_loop env feedId
              (priceUpdate Number_toString env feedId price)
              (Map_keys (subscriptions st)) Hwf st)
    as (calls & st' & Hrun & Hw & Hto & H).
  exists calls, st'. split; [exact Hrun|]. split; [exact Hw|].
  split; [|exact H].
  rewrite Hto. unfold recipients, subscribersOf. now apply targeted_keys.
Qed.

Lemma targeted_eq (env : Env) (feedId : number) (st : State) (ws : WS) :
  targeted env feedId (subscriptions st) ws =
  registered ws st && is_OPEN (readyState env ws) && subscribed ws feedId st.
Proof.
  unfold targeted, registered, subscribed, feeds_of, Map_has.
  destruct (Map_get ws (subscriptions st)); reflexivity.
Qed.

Lemma recipients_targeted (env : Env) (feedId : number) (st : State) :
  Map_wf (subscriptions st) ->
  recipients env feedId st =
  List.filter (targeted env feedId (subscriptions st))
    (Map_keys (subscriptions st)).
Proof. intros Hwf. symmetry. now apply targeted_keys. Qed.

Lemma existsb_recipients (env : Env) (feedId : number) (st : State) (ws : WS) :
  Map_wf (subscriptions st) ->
  existsb (Nat.eqb ws) (recipients env feedId st) =
  targeted env feedId (subscriptions st) ws.
Proof.
  intros Hwf. rewrite (recipients_targeted _ _ _ Hwf).
  apply eq_true_iff_eq. rewrite existsb_exists. split.
  - intros (k & Hin & Hk). apply Nat.eqb_eq in Hk as <-.
    now apply List.filter_In in Hin as [_ Hin].
  - intros Ht. exists ws. split; [|apply Nat.eqb_refl].
    apply List.filter_In. split; [|exact Ht].
    destruct (In_dec Nat.eq_dec ws (Map_keys (subscriptions st))) as [|Hno];
      [assumption|].
    apply Map_get_None in Hno. unfold targeted in Ht. rewrite Hno in Ht.
    discriminate.
Qed.

Lemma frames_to_once (ws : WS) (msg : ServerMsg) (calls : list SendCall) :
  NoDup (map to calls) ->
  Forall (fun c => frame c = msg) calls ->
  frames_to ws calls =
  if existsb (Nat.eqb ws) (map to calls) then [msg] else [].
Proof.
  unfold frames_to.
  induction calls as [|c calls IH]; intros Hnd Hfr; [reflexivity|].
  simpl in Hnd. apply NoDup_cons in Hnd as [Hc Hnd].
  inversion Hfr as [|? ? Hmsg Hfr']; subst. specialize (IH Hnd Hfr').
  simpl. rewrite (Nat.eqb_sym ws). destruct (Nat.eqb_spec (to c) ws) as [E|E].
  - simpl. rewrite IH.
    destruct (existsb (Nat.eqb ws) (map to calls)) eqn:Hex; [|reflexivity].
    exfalso. apply Hc. apply existsb_exists in Hex as (k & Hin & Hk).
    apply Nat.eqb_eq in Hk. subst. now apply list_elem_of_In.
  - simpl. exact IH.
Qed.

Lemma delivered_when_no_throw (env : Env) (ws : WS) (calls : list SendCall) :
  Forall (fun c => exists i, threw c = send_throws env i (to c)) calls ->
  (forall i, send_throws env i ws = false) ->
  delivered_to ws calls = frames_to ws calls.
Proof.
  intros Hcalls Hws. unfold delivered_to, frames_to. f_equal.
  induction Hcalls as [|c calls [i Hi] _ IH]; [reflexivity|].
  simpl. rewrite IH. destruct (Nat.eqb_spec (to c) ws) as [E|E]; [|reflexivity].
  rewrite Hi, E, Hws. reflexivity.
Qed.

Lemma recipients_NoDup (env : Env) (feedId : number) (st : State) :
  Map_wf (subscriptions st) -> NoDup (recipients env feedId st).
Proof.
  intros Hwf. rewrite (recipients_targeted _ _ _ Hwf).
  apply NoDup_ListNoDup, List.NoDup_filter, NoDup_ListNoDup. exact Hwf.
Qed.

(** C1, as the code has it.  [broadcastPriceUpdate(feedId, price)] ends
    normally and calls [send] exactly once for each connection that is in
    the registry, whose socket is OPEN and whose feed set has [feedId], in
    the order of the registry, and for no other connection; the frame has
    the single update [{feedId, price: price.toString()}]; the frame is
    delivered to a connection whose sends do not throw. *)
Theorem broadcast_reaches_open_subscribers (env : Env) (feedId price : number)
  (st : State) :
  Map_wf (subscriptions st) ->
  let res := broadcastPriceUpdate Number_toString env feedId price st in
  let calls := calls_since st (snd res) in
  let update :=
    MPriceUpdate (now env) [mkUpdate feedId (Number_toString price)] in
  fst res = Normal tt /\
  map to calls = recipients env feedId st /\
  (forall ws,
     frames_to ws calls =
     if registered ws st && is_OPEN (readyState env ws)
        && subscribed ws feedId st
     then [update] else []) /\
  (forall ws, (forall i, send_throws env i ws = false) ->
              delivered_to ws calls = frames_to ws calls).
Proof.
  intros Hwf.
  destruct (broadcast_spec env feedId price st Hwf)
    as (calls & st' & Hrun & Hw & Hto & Hfr & _).
  simpl. rewrite Hrun. simpl. rewrite (calls_since_app _ _ _ Hw).
  split; [reflexivity|]. split; [exact Hto|]. split.
  - intros ws. rewrite <- targeted_eq, <- (existsb_recipients _ _ _ _ Hwf), <- Hto.
    apply frames_to_once.
    + rewrite Hto. now apply recipients_NoDup.
    + eapply Forall_impl; [exact Hfr|]. now intros c [H _].
  - intros ws Hws. apply (delivered_when_no_throw env); [|exact Hws].
    eapply Forall_impl; [exact Hfr|]. now intros c [_ H].
Qed.

(** A connection that is not in the registry gets nothing from a
    broadcast. *)
Lemma broadcast_skips_unregistered (env : Env) (feedId price : number)
  (st : State) (ws : WS) :
  Map_wf (subscriptions st) ->
  registered ws st = false ->
  frames_to ws
    (calls_since st
       (snd (broadcastPriceUpdate Number_toString env feedId price st))) = [].
Proof.
  intros Hwf Hreg.
  destruct (broadcast_spec env feedId price st Hwf)
    as (calls & st' & Hrun & Hw & Hto & Hfr & _).
  rewrite Hrun. simpl. rewrite (calls_since_app _ _ _ Hw).
  rewrite (frames_to_once ws (priceUpdate Number_toString env feedId price)).
  - rewrite Hto, (existsb_recipients _ _ _ _ Hwf), targeted_eq, Hreg.
    reflexivity.
  - rewrite Hto. now apply recipients_NoDup.
  - eapply Forall_impl; [exact Hfr|]. now intros c [H _].
Qed.

(** C2, as the code has it.  In a broadcast the calls of [send] are made
    for all the recipients, whichever of them throw.  A connection whose
    send threw is not in the registry afterwards, and a later broadcast for
    any feed sends nothing to a connection that is not in the registry.  A
    connection for which no send threw keeps its entry: in particular a
    registered connection whose socket is not OPEN is passed over and stays
    in the registry. *)
Theorem broadcast_prunes_failed_sends (env : Env) (feedId price : number)
  (st : State) :
  Map_wf (subscriptions st) ->
  let res := broadcastPriceUpdate Number_toString env feedId price st in
  let st' := snd res in
  let calls := calls_since st st' in
  fst res = Normal tt /\
  map to calls = recipients env feedId st /\
  Map_wf (subscriptions st') /\
  (forall c, In c calls -> threw c = true -> registered (to c) st' = false) /\
  (forall ws,
     (forall c, In c calls -> to c = ws -> threw c = false) ->
     Map_get ws (subscriptions st') = Map_get ws (subscriptions st)) /\
  (forall ws,
     is_OPEN (readyState env ws) = false ->
     Map_get ws (subscriptions st') = Map_get ws (subscriptions st)) /\
  (forall ws env2 feedId2 price2,
     registered ws st' = false ->
     frames_to ws
       (calls_since st'
          (snd (broadcastPriceUpdate Number_toString env2 feedId2 price2 st')))
     = []).
Proof.
  intros Hwf.
  destruct (broadcast_spec env feedId price st Hwf)
    as (calls & st' & Hrun & Hw & Hto & Hfr & Hs & _).
  simpl. rewrite Hrun. simpl. rewrite (calls_since_app _ _ _ Hw).
  assert (Hwf' : Map_wf (subscriptions st'))
    by (rewrite Hs; now apply Map_wf_remove_failed).
  assert (Hkeep : forall ws,
            (forall c, In c calls -> to c = ws -> threw c = false) ->
            Map_get ws (subscriptions st') = Map_get ws (subscriptions st)).
  { intros ws Hok. rewrite Hs, Map_get_remove_failed.
    destruct (existsb _ calls) eqn:Hex; [|reflexivity].
    apply existsb_exists in Hex as (c & Hin & Hc).
    apply andb_true_iff in Hc as [Hc1 Hc2]. apply Nat.eqb_eq in Hc1.
    rewrite (Hok c Hin Hc1) in Hc2. discriminate. }
  split; [reflexivity|]. split; [exact Hto|]. split; [exact Hwf'|].
  split; [|split; [exact Hkeep|split]].
  - intros c Hin Hthrew. unfold registered, Map_has.
    rewrite Hs, Map_get_remove_failed.
    replace (existsb _ calls) with true; [reflexivity|].
    symmetry. apply existsb_exists. exists c. split; [exact Hin|].
    now rewrite Nat.eqb_refl, Hthrew.
  - intros ws Hclosed. apply Hkeep. intros c Hin Hc. exfalso.
    assert (Hrec : In ws (recipients env feedId st))
      by (rewrite <- Hto, <- Hc; now apply in_map).
    unfold recipients in Hrec. apply List.filter_In in Hrec as [_ Hopen].
    congruence.
  - intros ws env2 feedId2 price2 Hreg.
    now apply broadcast_skips_unregistered.
Qed.

(** ** What a message does to the registry *)





Section MessageEffect.

Variables (env : Env) (ws : WS) (message : JSValue) (st : State)
  (c : ClientData).
Hypothesis Hreg : Map_get ws (subscriptions st) = Some c.







End MessageEffect.

(** ** The registry along a run *)








Section Lifecycle.

Variables (ws : WS) (f : number).





End Lifecycle.

Lemma run_crashed (st : State) (evs : list (Env * Event)) :
  run Number_toString (Crashed st) evs = Crashed st.
Proof. induction evs as [|ee evs IH]; [reflexivity | exact IH]. Qed.




Lemma snapshots_shape (env : Env) (prices : gmap string number)
  (ids : list number) (m : ServerMsg) :
  In m (snapshots Number_toString env prices ids) ->
  exists t u, m = MPriceUpdate t u.
Proof.
  induction ids as [|n ids IH]; [intros []|].
  rewrite snapshots_cons. destruct (prices !! Number_toString n); [|exact IH].
  intros [<-|H]; [unfold priceUpdate; eauto | auto].
Qed.

(** C6. A subscribe (unsubscribe) request on a registered connection whose
    [subscriptions] ([feedIds]) property is absent or not an array makes
    exactly one call of [send], with the format error of that request, and
    changes nothing else: the registry, the prices and the log stay as they
    were.  When the property is an array the handler sends no error frame,
    whatever the elements are: rejecting an element is not reported. *)
Theorem malformed_request_single_error (env : Env) (ws : WS)
  (props : list (string * JSValue)) (kind : RequestKind) (st : State)
  (c : ClientData) :
  Map_get ws (subscriptions st) = Some c ->
  own_property props "type" = Some (JStr (request_type kind)) ->
  let result := handleClientMessage Number_toString env ws (JObj props) st in
  let failed := send_throws env (length (wire st)) ws in
  (Array_isArray (own_property props (request_field kind)) = false ->
   result =
     (if failed then Throw SendError else Normal tt,
      push_wire (mkSendCall ws (format_error kind) failed) st)) /\
  (Array_isArray (own_property props (request_field kind)) = true ->
   forall call m,
     In call (calls_since st (snd result)) -> frame call <> MError m).
Proof.
  intros Hreg Hty. simpl. split.
  - intros Harr.
    unfold handleClientMessage, handleSubscription, handleUnsubscription.
    run_monad. rewrite Hreg, Hty.
    destruct kind; simpl in *; rewrite (not_array_guard _ Harr), ?Hreg; auto.
  - intros Harr call m Hin Hframe.
    destruct kind; simpl in *;
      [destruct (own_property props "subscriptions")
         as [[| | | |elems|]|] eqn:Hfield
      |destruct (own_property props "feedIds")
         as [[| | | |elems|]|] eqn:Hfield];
      try discriminate.
    + assert (Hsubs : get_prop (JObj props) "subscriptions"
                      = Normal (Some (JArr elems))) by (simpl; now rewrite Hfield).
      destruct (handleSubscription_calls env ws (JObj props) st c elems
                  (own_property props "subscriptionId") Hreg Hsubs eq_refl)
        as [_ Hframes].
      assert (Hdispatch :
        handleClientMessage Number_toString env ws (JObj props) st =
        handleSubscription Number_toString env ws (JObj props) st).
      { unfold handleClientMessage. run_monad. now rewrite Hreg, Hty. }
      rewrite Hdispatch in Hin.
      apply (in_map frame) in Hin. rewrite Hframe, Hframes in Hin.
      apply in_app_or in Hin as [Hin|Hin].
      * apply snapshots_shape in Hin as (t & u & Hin). discriminate.
      * destruct (fst (fst (subscribe_each _ _ _ _ _ _)));
          [destruct Hin as [Hin|[]]; discriminate | destruct Hin].
    + revert Hin. unfold handleClientMessage, handleUnsubscription. run_monad.
      rewrite Hreg, Hty. simpl. rewrite Hreg, Hfield. simpl.
      rewrite (unsubscribe_each_result ws elems [] st c Hreg).
      unfold ws_send. simpl.
      destruct (send_throws env (length (wire st)) ws); simpl;
        (erewrite calls_since_app by (simpl; reflexivity));
        intros [<-|[]]; discriminate.
Qed.

(** ** What a message leaves alone *)

Lemma skeleton_mutate (k : WS) (g : FeedSet -> FeedSet) (m : Registry) :
  skeleton (Map_mutate k (with_feeds g) m) = skeleton m.
Proof.
  unfold skeleton. induction m as [|[j v] m IH]; simpl; [reflexivity|].
  destruct (Nat.eqb j k); simpl; [reflexivity | now rewrite IH].
Qed.

Lemma skeleton_keys (m : Registry) :
  Map_keys m = map (fun t => fst (fst t)) (skeleton m).
Proof.
  unfold Map_keys, skeleton. rewrite map_map. reflexivity.
Qed.

Lemma skeleton_ids (m : Registry) :
  client_ids m = map (fun t => snd (fst t)) (skeleton m).
Proof. unfold client_ids, skeleton. rewrite map_map. reflexivity. Qed.

Lemma touches_refl (ws : WS) (st : State) : touches_only ws st st.
Proof.
  split; [exists []; rewrite app_nil_r; auto|]. repeat split; auto.
Qed.

Lemma touches_trans (ws : WS) (st1 st2 st3 : State) :
  touches_only ws st1 st2 -> touches_only ws st2 st3 ->
  touches_only ws st1 st3.
Proof.
  intros ((c1 & Hw1 & Hf1) & Hp1 & Hi1 & Hl1 & Hs1 & Hg1)
         ((c2 & Hw2 & Hf2) & Hp2 & Hi2 & Hl2 & Hs2 & Hg2).
  split.
  - exists (c1 ++ c2). rewrite Hw2, Hw1, app_assoc. split; [reflexivity|].
    apply Forall_app. auto.
  - repeat split; try congruence. intros k Hk. rewrite Hg2, Hg1; auto.
Qed.

Lemma touches_push_wire (ws : WS) (f0 : ServerMsg) (t : bool) (st : State) :
  touches_only ws st (push_wire (mkSendCall ws f0 t) st).
Proof.
  split; [|repeat split; auto].
  exists [mkSendCall ws f0 t]. split; [reflexivity|]. now repeat constructor.
Qed.

Lemma touches_push_console (ws : WS) (l : LogEntry) (st : State) :
  touches_only ws st (push_console l st).
Proof. apply (touches_refl ws st). Qed.

Lemma touches_mutate (ws : WS) (g : FeedSet -> FeedSet) (st : State) :
  touches_only ws st (set_subscriptions (Map_mutate ws (with_feeds g)) st).
Proof.
  split; [exists []; simpl; rewrite app_nil_r; auto|].
  repeat split; auto; simpl.
  - apply skeleton_mutate.
  - intros k Hk. rewrite Map_get_mutate.
    destruct (Nat.eqb_spec ws k); [congruence | reflexivity].
Qed.

Lemma confined_ret {A} (ws : WS) (a : A) : confined ws (ret a).
Proof. intros st r st' [= _ <-]. apply touches_refl. Qed.

Lemma confined_lift {A} (ws : WS) (c : Completion A) : confined ws (lift c).
Proof. intros st r st' [= _ <-]. apply touches_refl. Qed.

Lemma confined_gets {A} (ws : WS) (g : State -> A) : confined ws (gets g).
Proof. intros st r st' [= _ <-]. apply touches_refl. Qed.

Lemma confined_log (ws : WS) (l : LogEntry) : confined ws (console_log l).
Proof. intros st r st' [= _ <-]. apply touches_push_console. Qed.

Lemma confined_send (env : Env) (ws : WS) (f0 : ServerMsg) :
  confined ws (ws_send env ws f0).
Proof. intros st r st' [= _ <-]. apply touches_push_wire. Qed.

Lemma confined_bind {A B} (ws : WS) (c : M A) (k : A -> M B) :
  confined ws c -> (forall a, confined ws (k a)) -> confined ws (bind c k).
Proof.
  intros Hc Hk st r st'. unfold bind.
  destruct (c st) as [[a|e] st1] eqn:Hrun.
  - intros Hrun2. eapply touches_trans; [eapply Hc; exact Hrun|].
    eapply Hk; exact Hrun2.
  - intros [= _ <-]. eapply Hc; exact Hrun.
Qed.

Lemma confined_try_catch {A} (ws : WS) (c : M A) (h : Exn -> M A) :
  confined ws c -> (forall e, confined ws (h e)) ->
  confined ws (try_catch c h).
Proof.
  intros Hc Hh st r st'. unfold try_catch.
  destruct (c st) as [[a|e] st1] eqn:Hrun.
  - intros [= _ <-]. eapply Hc; exact Hrun.
  - intros Hrun2. eapply touches_trans; [eapply Hc; exact Hrun|].
    eapply Hh; exact Hrun2.
Qed.

Lemma subscribe_each_touches (env : Env) (ws : WS) (elems : list JSValue)
  (acc : list number) (st : State) (r : Completion unit) (acc' : list number)
  (st' : State) :
  subscribe_each Number_toString env ws elems acc st = (r, acc', st') ->
  touches_only ws st st'.
Proof.
  intros Hloop.
  destruct (subscribe_each_spec _ _ _ _ _ _ _ _ Hloop) as
    (ids & calls & _ & Hw & _ & Hto & Hs & Hc & Hi & Hl & _ & _).
  split.
  - exists calls. split; [exact Hw|].
    eapply Forall_impl; [exact Hto|]. now intros x [H _].
  - repeat split; auto.
    + rewrite Hs. apply skeleton_mutate.
    + intros k Hk. rewrite Hs, Map_get_mutate.
      destruct (Nat.eqb_spec ws k); [congruence | reflexivity].
Qed.

Lemma unsubscribe_each_touches (ws : WS) (elems : list JSValue) :
  forall acc st, touches_only ws st (snd (unsubscribe_each ws elems acc st)).
Proof.
  induction elems as [|v rest IH]; intros acc st; [apply touches_refl|].
  simpl. destruct (unsubscribe_one ws v acc st) as [acc1 st1] eqn:Hone.
  eapply touches_trans; [|apply IH].
  unfold unsubscribe_one in Hone.
  destruct v; try (injection Hone as _ <-; apply touches_refl).
  destruct (Map_get ws (subscriptions st)) as [c|];
    [|injection Hone as _ <-; apply touches_refl].
  destruct (Set_has n (subscribedFeeds c)); injection Hone as _ <-;
    [apply touches_mutate | apply touches_refl].
Qed.

Lemma handleSubscription_confined (env : Env) (ws : WS) (message : JSValue) :
  confined ws (handleSubscription Number_toString env ws message).
Proof.
  unfold handleSubscription.
  apply confined_bind; [apply confined_gets|]. intros [c|]; [|apply confined_ret].
  apply confined_bind; [apply confined_lift|]. intros subs.
  destruct (negb (truthy subs) || negb (Array_isArray subs));
    [apply confined_send|].
  destruct subs as [[| | | |elems|]|]; try apply confined_ret.
  apply confined_bind.
  - intros st r st'.
    destruct (subscribe_each Number_toString env ws elems [] st)
      as [[r0 acc] st0] eqn:Hloop.
    apply subscribe_each_touches in Hloop.
    destruct r0; intros [= _ <-]; exact Hloop.
  - intros acc. apply confined_bind; [apply confined_lift|]. intros sid.
    apply confined_bind; [apply confined_send|]. intros _. apply confined_log.
Qed.

Lemma handleUnsubscription_confined (env : Env) (ws : WS) (message : JSValue) :
  confined ws (handleUnsubscription env ws message).
Proof.
  unfold handleUnsubscription.
  apply confined_bind; [apply confined_gets|]. intros [c|]; [|apply confined_ret].
  apply confined_bind; [apply confined_lift|]. intros ids.
  destruct (negb (truthy ids) || negb (Array_isArray ids));
    [apply confined_send|].
  destruct ids as [[| | | |elems|]|]; try apply confined_ret.
  apply confined_bind.
  - intros st r st'. pose proof (unsubscribe_each_touches ws elems [] st) as H.
    destruct (unsubscribe_each ws elems [] st) as [acc st0].
    intros [= _ <-]. exact H.
  - intros acc. apply confined_bind; [apply confined_send|]. intros _.
    apply confined_log.
Qed.

Lemma handleClientMessage_confined (env : Env) (ws : WS) (message : JSValue) :
  confined ws (handleClientMessage Number_toString env ws message).
Proof.
  unfold handleClientMessage.
  apply confined_bind; [apply confined_gets|]. intros [c|]; [|apply confined_ret].
  apply confined_bind; [apply confined_lift|]. intros type.
  destruct (is_string type "subscribe"); [apply handleSubscription_confined|].
  destruct (is_string type "unsubscribe"); [apply handleUnsubscription_confined|].
  destruct (is_string type "ping"); [apply confined_send|].
  apply confined_bind; [apply confined_lift|]. intros shown.
  apply confined_send.
Qed.

Lemma on_message_confined (env : Env) (ws : WS) (clientId : nat)
  (parsed : option JSValue) :
  confined ws (on_message Number_toString env ws clientId parsed).
Proof.
  unfold on_message. apply confined_try_catch.
  - apply confined_bind; [apply confined_lift|]. intros message.
    apply handleClientMessage_confined.
  - intros e. apply confined_bind; [apply confined_log|]. intros _.
    apply confined_send.
Qed.

Lemma skeleton_get (k : WS) (m m' : Registry) (c : ClientData) :
  skeleton m' = skeleton m ->
  Map_get k m = Some c ->
  exists c', Map_get k m' = Some c' /\ id c' = id c /\
             connectedAt c' = connectedAt c.
Proof.
  revert m'. induction m as [|[j v] m IH]; intros [|[j' v'] m'] Hsk Hget;
    simpl in *; try discriminate.
  injection Hsk as Hj Hid Hat Hsk. subst j'.
  destruct (Nat.eqb j k).
  - injection Hget as <-. eauto.
  - now apply IH.
Qed.

Lemma skeleton_registered (k : WS) (m m' : Registry) :
  skeleton m' = skeleton m -> Map_has k m' = Map_has k m.
Proof.
  intros Hsk. unfold Map_has.
  assert (Hkeys : Map_keys m' = Map_keys m) by (now rewrite !skeleton_keys, Hsk).
  destruct (Map_get k m) eqn:H1, (Map_get k m') eqn:H2; try reflexivity.
  - apply Map_get_None in H2. rewrite Hkeys in H2. apply Map_get_None in H2.
    congruence.
  - apply Map_get_None in H1. rewrite <- Hkeys in H1. apply Map_get_None in H1.
    congruence.
Qed.

(** A message on the socket [ws], whatever it holds and whether or not
    [ws] is registered, is answered on [ws] alone and leaves everything
    else as it was: the prices, the counter of client ids, the listeners,
    which sockets are registered (and in which order), the record of every
    other connection, and the id and the connection time of [ws] itself.
    Only the feed set of [ws] can change. *)
Theorem message_touches_only_its_connection (env : Env) (ws : WS)
  (clientId : nat) (parsed : option JSValue) (st : State) :
  let st' := snd (on_message Number_toString env ws clientId parsed st) in
  Forall (fun c => to c = ws) (calls_since st st') /\
  currentPrices st' = currentPrices st /\
  connectionId st' = connectionId st /\
  listeners st' = listeners st /\
  Map_keys (subscriptions st') = Map_keys (subscriptions st) /\
  (forall k, registered k st' = registered k st) /\
  (forall k, k <> ws ->
             Map_get k (subscriptions st') = Map_get k (subscriptions st)) /\
  (forall c, Map_get ws (subscriptions st) = Some c ->
             exists c', Map_get ws (subscriptions st') = Some c' /\
                        id c' = id c /\ connectedAt c' = connectedAt c).
Proof.
  destruct (on_message Number_toString env ws clientId parsed st)
    as [r st'] eqn:Hrun. simpl.
  destruct (on_message_confined env ws clientId parsed st r st' Hrun)
    as ((calls & Hw & Hto) & Hp & Hi & Hl & Hsk & Hget).
  rewrite (calls_since_app _ _ _ Hw).
  repeat split; auto.
  - now rewrite !skeleton_keys, Hsk.
  - intros k. unfold registered. now apply skeleton_registered.
  - intros c Hc. now apply (skeleton_get ws (subscriptions st)).
Qed.

(** ** The answers of the dispatcher and of the listeners *)

(** A frame that [JSON.parse] rejects is answered with one error frame,
    "Invalid JSON format", whether or not the socket is registered, and the
    registry is not touched.  The valid JSON text [null] gets the same
    answer on a registered socket (reading [message.type] throws), and no
    answer at all on a socket that is not registered. *)
Theorem invalid_json_reply (env : Env) (ws : WS) (clientId : nat) (st : State) :
  let failed := send_throws env (length (wire st)) ws in
  let reply e :=
    (if failed then Throw SendError else Normal tt,
     push_wire (mkSendCall ws (MError "Invalid JSON format") failed)
       (push_console (LogParseFailed clientId e) st)) in
  on_message Number_toString env ws clientId None st = reply SyntaxError /\
  (registered ws st = true ->
   on_message Number_toString env ws clientId (Some JNull) st
   = reply TypeError) /\
  (registered ws st = false ->
   on_message Number_toString env ws clientId (Some JNull) st
   = (Normal tt, st)).
Proof.
  unfold on_message, handleClientMessage, ws_send, registered, Map_has.
  run_monad. split; [reflexivity|].
  destruct (Map_get ws (subscriptions st)); split; intros H;
    try discriminate; reflexivity.
Qed.

(** A ping on a registered connection makes one call of [send], the pong
    with the time of the clock, and changes nothing else. *)
Theorem ping_gets_pong (env : Env) (ws : WS) (message : JSValue) (st : State)
  (c : ClientData) :
  Map_get ws (subscriptions st) = Some c ->
  get_prop message "type" = Normal (Some (JStr "ping")) ->
  let failed := send_throws env (length (wire st)) ws in
  handleClientMessage Number_toString env ws message st =
    (if failed then Throw SendError else Normal tt,
     push_wire (mkSendCall ws (MPong (now env)) failed) st).
Proof.
  intros Hreg Hty. unfold handleClientMessage. run_monad.
  rewrite Hreg, Hty. reflexivity.
Qed.

(** A message on a registered connection whose [type] is not one of the
    three known strings is answered with one error frame that names the
    type as a template literal renders it; the registry is not touched.  A
    message that is a number, a string, a boolean or an array, and an
    object without [type], is told "Unknown message type: undefined".
    When the type cannot be rendered (an object with an own [toString]
    property) the dispatcher throws before any send, and the listener
    answers "Invalid JSON format". *)
Theorem unknown_type_reply (env : Env) (ws : WS) (message : JSValue)
  (st : State) (c : ClientData) (type : JSResult) :
  Map_get ws (subscriptions st) = Some c ->
  get_prop message "type" = Normal type ->
  is_string type "subscribe" = false ->
  is_string type "unsubscribe" = false ->
  is_string type "ping" = false ->
  let failed := send_throws env (length (wire st)) ws in
  let outcome := if failed then Throw SendError else Normal tt in
  (forall shown,
     template_ToString Number_toString type = Normal shown ->
     handleClientMessage Number_toString env ws message st =
       (outcome,
        push_wire
          (mkSendCall ws
             (MError (String.append "Unknown message type: " shown)) failed)
          st)) /\
  (forall e clientId,
     template_ToString Number_toString type = Throw e ->
     handleClientMessage Number_toString env ws message st = (Throw e, st) /\
     on_message Number_toString env ws clientId (Some message) st =
       (outcome,
        push_wire (mkSendCall ws (MError "Invalid JSON format") failed)
          (push_console (LogParseFailed clientId e) st))) /\
  (type = None ->
   template_ToString Number_toString type = Normal "undefined") /\
  (forall props v,
     type = Some (JObj props) -> own_property props "toString" = Some v ->
     template_ToString Number_toString type = Throw TypeError).
Proof.
  intros Hreg Hty H1 H2 H3. simpl.
  assert (Hrun : handleClientMessage Number_toString env ws message st =
                 match template_ToString Number_toString type with
                 | Normal shown =>
                     ws_send env ws
                       (MError (String.append "Unknown message type: " shown)) st
                 | Throw e => (Throw e, st)
                 end).
  { unfold handleClientMessage. run_monad. rewrite Hreg, Hty, H1, H2, H3.
    now destruct (template_ToString Number_toString type). }
  split; [|split; [|split]].
  - intros shown Hshown. rewrite Hrun, Hshown. reflexivity.
  - intros e clientId He. split; [now rewrite Hrun, He|].
    unfold on_message. run_monad. rewrite Hrun, He. reflexivity.
  - intros ->. reflexivity.
  - intros props v -> Hv. simpl. now rewrite Hv.
Qed.

(** The ['connection'] listener gives the socket the next client id,
    registers it with an empty feed set (an entry the [Map] already held
    for that socket is replaced in place) and makes one call of [send],
    the welcome frame with that id; no other connection changes.  When
    the send succeeds the listeners of the socket are attached.  When it
    throws, the socket stays registered, no listener is attached and the
    exception leaves the listener. *)
Theorem connection_registers_with_next_id (env : Env) (ws : WS)
  (clientIP : string) (st : State) :
  let result := on_connection env ws clientIP st in
  let st' := snd result in
  let clientId := S (connectionId st) in
  let failed := send_throws env (length (wire st)) ws in
  fst result = (if failed then Throw SendError else Normal tt) /\
  connectionId st' = clientId /\
  Map_get ws (subscriptions st') =
    Some {| id := clientId; subscribedFeeds := []; connectedAt := now env |} /\
  (forall k, k <> ws ->
             Map_get k (subscriptions st') = Map_get k (subscriptions st)) /\
  calls_since st st' =
    [mkSendCall ws (MConnected clientId "Connected to Bananazone price feed")
       failed] /\
  listeners st' =
    (if failed then listeners st else listeners st ++ [(ws, clientId)]) /\
  currentPrices st' = currentPrices st.
Proof.
  unfold on_connection, ws_send. run_monad.
  assert (Hother : forall v k, k <> ws ->
            Map_get k (Map_set ws v (subscriptions st))
            = Map_get k (subscriptions st)).
  { intros v k Hk. rewrite Map_get_set.
    destruct (Nat.eqb_spec ws k); [congruence | reflexivity]. }
  destruct (send_throws env (length (wire st)) ws); simpl;
    rewrite Map_get_set, Nat.eqb_refl;
    (erewrite calls_since_app by (simpl; reflexivity));
    repeat split; auto.
Qed.

(** ** What every state of the server satisfies *)

Lemma client_ids_delete (k : WS) (x : nat) (m : Registry) :
  In x (client_ids (Map_delete k m)) -> In x (client_ids m).
Proof.
  induction m as [|[j v] m IH]; simpl; [tauto|].
  destruct (Nat.eqb j k); simpl; tauto.
Qed.

Lemma client_ids_set (k : WS) (v : ClientData) (x : nat) (m : Registry) :
  In x (client_ids (Map_set k v m)) -> x = id v \/ In x (client_ids m).
Proof.
  induction m as [|[j w] m IH]; simpl; [intuition|].
  destruct (Nat.eqb j k); simpl; intuition.
Qed.

Lemma ids_after_delete (k : WS) (n : nat) (m : Registry) :
  NoDup (client_ids m) ->
  Forall (fun e => 1 <= id (snd e) <= n) m ->
  NoDup (client_ids (Map_delete k m)) /\
  Forall (fun e => 1 <= id (snd e) <= n) (Map_delete k m).
Proof.
  induction m as [|[j v] m IH]; simpl; intros Hnd Hb; [auto|].
  apply NoDup_cons in Hnd as [Hv Hnd]. inversion Hb as [|? ? Hbv Hb']; subst.
  destruct (IH Hnd Hb') as [IH1 IH2].
  destruct (Nat.eqb j k); simpl; [auto|]. split.
  - apply NoDup_cons. split; [|exact IH1].
    rewrite list_elem_of_In in *. intros H. apply Hv.
    now apply client_ids_delete in H.
  - now constructor.
Qed.

Lemma ids_after_remove_failed (calls : list SendCall) (n : nat) (m : Registry) :
  NoDup (client_ids m) ->
  Forall (fun e => 1 <= id (snd e) <= n) m ->
  NoDup (client_ids (remove_failed calls m)) /\
  Forall (fun e => 1 <= id (snd e) <= n) (remove_failed calls m).
Proof.
  revert m. induction calls as [|c calls IH]; intros m Hnd Hb; [auto|].
  simpl. destruct (threw c); [|now apply IH].
  destruct (ids_after_delete (to c) n m Hnd Hb). now apply IH.
Qed.

Lemma ids_after_set (k : WS) (v : ClientData) (n : nat) (m : Registry) :
  id v = S n ->
  NoDup (client_ids m) ->
  Forall (fun e => 1 <= id (snd e) <= n) m ->
  NoDup (client_ids (Map_set k v m)) /\
  Forall (fun e => 1 <= id (snd e) <= S n) (Map_set k v m).
Proof.
  intros Hv. induction m as [|[j w] m IH]; simpl; intros Hnd Hb.
  - split; [apply NoDup_singleton|].
    constructor; [simpl; lia | constructor].
  - apply NoDup_cons in Hnd as [Hw Hnd]. inversion Hb as [|? ? Hbw Hb']; subst.
    simpl in Hbw. destruct (IH Hnd Hb') as [IH1 IH2].
    assert (Hfresh : ~ In (S n) (client_ids m)).
    { intros H. apply in_map_iff in H as (e & He & Hin).
      rewrite Forall_forall in Hb'. apply list_elem_of_In in Hin.
      specialize (Hb' e Hin). simpl in Hb'. lia. }
    assert (Hrelax : Forall (fun e => 1 <= id (snd e) <= S n) m).
    { eapply Forall_impl; [exact Hb'|]. simpl. intros e He. lia. }
    destruct (Nat.eqb j k); simpl; split.
    + apply NoDup_cons. split; [|exact Hnd].
      rewrite list_elem_of_In, Hv. exact Hfresh.
    + constructor; [simpl; lia | exact Hrelax].
    + apply NoDup_cons. split; [|exact IH1].
      rewrite list_elem_of_In in *. intros H.
      apply client_ids_set in H as [H|H]; [lia | auto].
    + constructor; [simpl; lia | exact IH2].
Qed.

Lemma on_connection_state (env : Env) (ws : WS) (clientIP : string)
  (st : State) (r : Completion unit) (st' : State) :
  on_connection env ws clientIP st = (r, st') ->
  subscriptions st' =
    Map_set ws {| id := S (connectionId st); subscribedFeeds := [];
                  connectedAt := now env |} (subscriptions st) /\
  connectionId st' = S (connectionId st) /\
  currentPrices st' = currentPrices st.
Proof.
  unfold on_connection, ws_send. run_monad.
  destruct (send_throws env (length (wire st)) ws); intros [= _ <-]; auto.
Qed.

Lemma tick_state (env : Env) (newPrice : number) (st : State) :
  Map_wf (subscriptions st) ->
  exists calls st',
    simulatePriceUpdates_tick Number_toString env newPrice st = (Normal tt, st') /\
    wire st' = wire st ++ calls /\
    map to calls = recipients env SOL_FEED_ID st /\
    Forall (fun c =>
              frame c = priceUpdate Number_toString env SOL_FEED_ID newPrice /\
              exists i, threw c = send_throws env i (to c)) calls /\
    subscriptions st' = remove_failed calls (subscriptions st) /\
    currentPrices st' =
      <[Number_toString SOL_FEED_ID := newPrice]> (currentPrices st) /\
    connectionId st' = connectionId st /\
    listeners st' = listeners st.
Proof.
  intros Hwf. unfold simulatePriceUpdates_tick. run_monad.
  rewrite lookup_insert_eq.
  destruct (broadcast_spec env SOL_FEED_ID newPrice
              (set_currentPrices
                 (insert (Number_toString SOL_FEED_ID) newPrice) st) Hwf)
    as (calls & st' & Hrun & H).
  exists calls, st'. split; [exact Hrun | exact H].
Qed.

Lemma handle_invariant (env : Env) (ev : Event) (st : State)
  (r : Completion unit) (st' : State) :
  server_invariant Number_toString st ->
  handle Number_toString env ev st = (r, st') ->
  server_invariant Number_toString st' /\
  connectionId st' =
    connectionId st + match ev with Connection _ _ => 1 | _ => 0 end.
Proof.
  intros (Hwf & [Hnd Hb] & p & Hp) Hrun.
  assert (Hsame : touches_only
                    match ev with
                    | Connection w _ | Message w _ | Close w _ _ | Error w => w
                    | Tick _ => 0
                    end st st' ->
                  server_invariant Number_toString st' /\
                  connectionId st' = connectionId st + 0).
  { intros (_ & Hp' & Hi & _ & Hsk & _). rewrite Hi.
    split; [|lia]. split; [|split].
    - unfold Map_wf. now rewrite skeleton_keys, Hsk, <- skeleton_keys.
    - unfold ids_ok.
      split; [rewrite skeleton_ids, Hsk, <- skeleton_ids; exact Hnd|].
      apply Forall_forall. intros e He.
      assert (Hid : In (id (snd e)) (client_ids (subscriptions st))).
      { rewrite skeleton_ids, <- Hsk, <- skeleton_ids.
        apply (in_map (fun e => id (snd e))). now apply list_elem_of_In. }
      apply in_map_iff in Hid as (e0 & Heq & He0). rewrite <- Heq, Hi.
      rewrite Forall_forall in Hb. apply Hb. now apply list_elem_of_In.
    - exists p. congruence. }
  assert (Hgone : forall w,
                  subscriptions st' = Map_delete w (subscriptions st) ->
                  connectionId st' = connectionId st ->
                  currentPrices st' = currentPrices st ->
                  server_invariant Number_toString st' /\
                  connectionId st' = connectionId st + 0).
  { intros w Hs Hi Hp'. split; [|lia].
    destruct (ids_after_delete w _ _ Hnd Hb).
    split; [rewrite Hs; now apply Map_wf_delete|].
    split; [unfold ids_ok; rewrite Hs, Hi; split; assumption|].
    exists p. congruence. }
  destruct ev as [w ip|w parsed|w code reason|w|newPrice]; simpl in Hrun.
  - apply on_connection_state in Hrun as (Hs & Hi & Hp').
    rewrite Hi. split; [|lia].
    destruct (ids_after_set w {| id := S (connectionId st);
                                 subscribedFeeds := [];
                                 connectedAt := now env |}
                (connectionId st) (subscriptions st) eq_refl Hnd Hb)
      as [H1 H2].
    split; [rewrite Hs; now apply Map_wf_set|].
    split; [unfold ids_ok; now rewrite Hs, Hi|]. exists p. congruence.
  - unfold with_listener in Hrun. apply Hsame.
    destruct (listener_of w (listeners st));
      [eapply on_message_confined; exact Hrun|].
    injection Hrun as _ <-. apply touches_refl.
  - unfold with_listener in Hrun.
    destruct (listener_of w (listeners st)); injection Hrun as _ <-.
    + apply (Hgone w); reflexivity.
    + apply Hsame, touches_refl.
  - unfold with_listener in Hrun.
    destruct (listener_of w (listeners st)); injection Hrun as _ <-.
    + apply (Hgone w); reflexivity.
    + apply Hsame, touches_refl.
  - destruct (tick_state env newPrice st Hwf)
      as (calls & st2 & Hrun2 & _ & _ & _ & Hs & Hp' & Hi & _).
    rewrite Hrun2 in Hrun. injection Hrun as _ <-.
    rewrite Hi. split; [|lia].
    destruct (ids_after_remove_failed calls _ _ Hnd Hb) as [H1 H2].
    split; [rewrite Hs; now apply Map_wf_remove_failed|].
    split; [unfold ids_ok; rewrite Hs, Hi; split; assumption|].
    exists newPrice. rewrite Hp', Hp. apply insert_singleton_eq.
Qed.

Lemma initial_invariant :
  server_invariant Number_toString (initial_state Number_toString).
Proof.
  split; [apply NoDup_nil_2|]. split; [split; [apply NoDup_nil_2|constructor]|].
  eexists. reflexivity.
Qed.

Lemma run_invariant (evs : list (Env * Event)) :
  forall p,
    server_invariant Number_toString (state_of p) ->
    server_invariant Number_toString
      (state_of (run Number_toString p evs)) /\
    (is_running (run Number_toString p evs) = true ->
     connectionId (state_of (run Number_toString p evs)) =
     connectionId (state_of p) + length (connections evs)).
Proof.
  induction evs as [|[env ev] evs IH]; intros p Hinv.
  - simpl. split; [exact Hinv | lia].
  - change (run Number_toString p ((env, ev) :: evs))
      with (run Number_toString (step Number_toString p (env, ev)) evs).
    destruct p as [st|st]; cbn [step fst snd].
    + destruct (handle Number_toString env ev st) as [[[]|e] st1] eqn:Hstep;
        destruct (handle_invariant env ev st _ st1 Hinv Hstep) as [Hinv1 Hid].
      * destruct (IH (Running st1) Hinv1) as [H1 H2]. split; [exact H1|].
        intros Hrun. rewrite (H2 Hrun). simpl state_of. rewrite Hid.
        destruct ev; simpl; lia.
      * rewrite run_crashed. split; [exact Hinv1 | discriminate].
    + rewrite run_crashed. split; [exact Hinv | discriminate].
Qed.

(** In every state the server goes through, the client ids of the
    registered connections are pairwise different and lie between 1 and
    the counter; and while the process runs the counter is the number of
    connection events so far, so the n-th connection gets the id n. *)
Theorem client_ids_are_unique (evs : list (Env * Event)) :
  let p := run Number_toString (Running (initial_state Number_toString)) evs in
  let st := state_of p in
  NoDup (client_ids (subscriptions st)) /\
  Forall (fun e => 1 <= id (snd e) <= connectionId st) (subscriptions st) /\
  (is_running p = true -> connectionId st = length (connections evs)).
Proof.
  destruct (run_invariant evs (Running (initial_state Number_toString))
              initial_invariant) as [(_ & [H1 H2] & _) H3].
  simpl. repeat split; auto.
Qed.

(** In every state the server goes through, [currentPrices] has exactly
    one entry, that of the SOL feed: a subscribe gets a snapshot for the
    feed ids whose key is that of the SOL feed and for no other. *)
Theorem only_the_SOL_feed_has_a_price (evs : list (Env * Event)) :
  let st :=
    state_of (run Number_toString
                (Running (initial_state Number_toString)) evs) in
  exists p,
    currentPrices st = {[ Number_toString SOL_FEED_ID := p ]} /\
    forall env n,
      snapshots Number_toString env (currentPrices st) [n] =
      if decide (Number_toString n = Number_toString SOL_FEED_ID)
      then [priceUpdate Number_toString env n p] else [].
Proof.
  destruct (run_invariant evs (Running (initial_state Number_toString))
              initial_invariant) as [(_ & _ & p & Hp) _].
  cbv zeta. exists p. split; [exact Hp|]. intros env n.
  rewrite snapshots_cons, Hp.
  destruct (decide (Number_toString n = Number_toString SOL_FEED_ID)) as [E|E].
  - now rewrite E, lookup_singleton_eq.
  - rewrite lookup_singleton_ne; [reflexivity | congruence].
Qed.

(** ** What can end the process *)

Lemma on_message_normal (env : Env) (ws : WS) (clientId : nat)
  (parsed : option JSValue) (st : State) :
  (forall k, send_throws env k ws = false) ->
  fst (on_message Number_toString env ws clientId parsed st) = Normal tt.
Proof.
  intros Hsend. unfold on_message, try_catch.
  destruct (bind _ _ st) as [[[]|e] st1]; [reflexivity|].
  unfold ws_send. run_monad. now rewrite Hsend.
Qed.

Lemma handle_passive (env : Env) (ev : Event) (st : State) :
  Map_wf (subscriptions st) ->
  match ev with Close _ _ _ | Error _ | Tick _ => True | _ => False end ->
  fst (handle Number_toString env ev st) = Normal tt.
Proof.
  intros Hwf Hev. destruct ev as [| |w code reason|w|newPrice];
    try destruct Hev; simpl.
  - unfold with_listener. now destruct (listener_of w (listeners st)).
  - unfold with_listener. now destruct (listener_of w (listeners st)).
  - destruct (tick_state env newPrice st Hwf) as (calls & st' & Hrun & _).
    now rewrite Hrun.
Qed.

Lemma handle_normal (env : Env) (ev : Event) (st : State) :
  Map_wf (subscriptions st) ->
  sends_succeed env ->
  fst (handle Number_toString env ev st) = Normal tt.
Proof.
  intros Hwf Hsend.
  destruct ev as [w ip|w parsed| | |]; try (now apply handle_passive).
  - simpl. unfold on_connection, ws_send. run_monad. now rewrite Hsend.
  - simpl. unfold with_listener.
    destruct (listener_of w (listeners st)); [|reflexivity].
    apply on_message_normal. intros k. apply Hsend.
Qed.

(** While no call of [send] throws, no event ends the process: every
    listener and the timer callback return normally, whatever the clients
    send. *)
Theorem process_survives_when_sends_succeed (evs : list (Env * Event)) :
  Forall (fun ee => sends_succeed (fst ee)) evs ->
  is_running
    (run Number_toString (Running (initial_state Number_toString)) evs) = true.
Proof.
  intros Hcalm.
  assert (Hgen : forall st, server_invariant Number_toString st ->
                 is_running (run Number_toString (Running st) evs) = true).
  { induction Hcalm as [|[env ev] evs Hsend _ IH]; intros st Hinv;
      [reflexivity|].
    change (run Number_toString (Running st) ((env, ev) :: evs))
      with (run Number_toString
              (step Number_toString (Running st) (env, ev)) evs).
    cbn [step fst snd].
    pose proof (handle_normal env ev st (proj1 Hinv) Hsend) as Hok.
    destruct (handle Number_toString env ev st) as [r st1] eqn:Hstep.
    simpl in Hok. subst r. apply IH.
    now destruct (handle_invariant env ev st _ st1 Hinv Hstep). }
  apply Hgen, initial_invariant.
Qed.

(** In every state the server goes through, the close and error
    listeners and the timer callback return normally, whatever the
    environment does: a send that throws during a broadcast is caught, so
    only the connection and message listeners can end the process. *)
Theorem close_error_and_timer_never_throw (evs : list (Env * Event))
  (env : Env) :
  let st :=
    state_of (run Number_toString
                (Running (initial_state Number_toString)) evs) in
  (forall ws code reason,
     fst (handle Number_toString env (Close ws code reason) st) = Normal tt) /\
  (forall ws, fst (handle Number_toString env (Error ws) st) = Normal tt) /\
  (forall newPrice,
     fst (handle Number_toString env (Tick newPrice) st) = Normal tt).
Proof.
  destruct (run_invariant evs (Running (initial_state Number_toString))
              initial_invariant) as [(Hwf & _) _].
  cbv zeta. repeat split; intros; now apply handle_passive.
Qed.

(** ** The timer callback *)

(** One firing of the timer with the price [newPrice], on a registry
    without duplicate keys: the callback returns normally, the entry of the
    SOL feed in [currentPrices] becomes [newPrice] and no other entry
    changes, and [send] is called once, with the update of the SOL feed at
    that price, for each registered connection whose socket is open and
    whose feed set has the SOL feed, in the order of the registry. *)
Theorem tick_publishes_new_price (env : Env) (newPrice : number) (st : State) :
  Map_wf (subscriptions st) ->
  let result := simulatePriceUpdates_tick Number_toString env newPrice st in
  let st' := snd result in
  let calls := calls_since st st' in
  fst result = Normal tt /\
  currentPrices st' !! Number_toString SOL_FEED_ID = Some newPrice /\
  (forall key, key <> Number_toString SOL_FEED_ID ->
               currentPrices st' !! key = currentPrices st !! key) /\
  map to calls = recipients env SOL_FEED_ID st /\
  Forall (fun c =>
            frame c =
            MPriceUpdate (now env)
              [mkUpdate SOL_FEED_ID (Number_toString newPrice)]) calls /\
  connectionId st' = connectionId st.
Proof.
  intros Hwf.
  destruct (tick_state env newPrice st Hwf)
    as (calls & st' & Hrun & Hw & Hto & Hfr & _ & Hp & Hi & _).
  cbv zeta. rewrite Hrun. simpl. rewrite (calls_since_app _ _ _ Hw), Hp.
  split; [reflexivity|]. split; [apply lookup_insert_eq|].
  split; [intros key Hkey; now apply lookup_insert_ne|].
  split; [exact Hto|]. split; [|exact Hi].
  eapply Forall_impl; [exact Hfr|]. now intros c [H _].
Qed.

Lemma SOL_FEED_ID_truthy : number_truthy SOL_FEED_ID = true.
Proof. reflexivity. Qed.

(** A subscribe loop over the single element [{feedId: n}]. *)
Lemma subscribe_single (env : Env) (ws : WS) (n p : number) (st : State) :
  number_truthy n = true ->
  currentPrices st !! Number_toString n = Some p ->
  let failed := send_throws env (length (wire st)) ws in
  subscribe_each Number_toString env ws [JObj [("feedId", JNum n)]] [] st =
  (if failed then Throw SendError else Normal tt, [n],
   push_wire (mkSendCall ws (priceUpdate Number_toString env n p) failed)
     (set_subscriptions (Map_mutate ws (with_feeds (Set_add n))) st)).
Proof.
  intros Hn Hp. simpl. unfold subscribe_one. simpl. rewrite Hn, Hp.
  unfold ws_send. simpl.
  now destruct (send_throws env (length (wire st)) ws).
Qed.

Lemma subscriptionMessage_reply (env : Env) (ws : WS) (st : State)
  (c : ClientData) (p : number) :
  Map_get ws (subscriptions st) = Some c ->
  currentPrices st !! Number_toString SOL_FEED_ID = Some p ->
  (forall k, send_throws env k ws = false) ->
  handleClientMessage Number_toString env ws subscriptionMessage st =
  (Normal tt,
   push_console (LogSubscribed (id c) [SOL_FEED_ID])
     (push_wire (mkSendCall ws (MSubscribed JNull [SOL_FEED_ID]) false)
        (push_wire
           (mkSendCall ws (priceUpdate Number_toString env SOL_FEED_ID p) false)
           (set_subscriptions
              (Map_mutate ws (with_feeds (Set_add SOL_FEED_ID))) st)))).
Proof.
  intros Hreg Hp Hsend.
  assert (Hdispatch :
    handleClientMessage Number_toString env ws subscriptionMessage st =
    handleSubscription Number_toString env ws subscriptionMessage st).
  { unfold handleClientMessage. run_monad. now rewrite Hreg. }
  rewrite Hdispatch.
  rewrite (handleSubscription_array env ws subscriptionMessage st c
             [JObj [("feedId", JNum SOL_FEED_ID)]] None Hreg eq_refl eq_refl).
  rewrite (subscribe_single env ws SOL_FEED_ID p st SOL_FEED_ID_truthy Hp).
  rewrite Hsend. cbv zeta. rewrite Hsend. reflexivity.
Qed.

(** The price that the timer published is the one a later subscriber gets:
    after a firing with [newPrice], the message of the test client on a
    registered connection is answered with the snapshot of the SOL feed at
    [newPrice]. *)
Theorem snapshot_shows_last_published_price (env env' : Env)
  (newPrice : number) (st : State) (ws : WS) (c : ClientData) :
  Map_wf (subscriptions st) ->
  let st1 :=
    snd (simulatePriceUpdates_tick Number_toString env newPrice st) in
  Map_get ws (subscriptions st1) = Some c ->
  (forall k, send_throws env' k ws = false) ->
  let st2 :=
    snd (handleClientMessage Number_toString env' ws subscriptionMessage st1) in
  calls_since st1 st2 =
    [mkSendCall ws
       (MPriceUpdate (now env')
          [mkUpdate SOL_FEED_ID (Number_toString newPrice)]) false;
     mkSendCall ws (MSubscribed JNull [SOL_FEED_ID]) false].
Proof.
  intros Hwf st1 Hreg Hsend st2. subst st2.
  assert (Hp : currentPrices st1 !! Number_toString SOL_FEED_ID = Some newPrice).
  { subst st1.
    destruct (tick_state env newPrice st Hwf)
      as (calls & st' & Hrun & _ & _ & _ & _ & Hp & _).
    rewrite Hrun. simpl. rewrite Hp. apply lookup_insert_eq. }
  rewrite (subscriptionMessage_reply env' ws st1 c newPrice Hreg Hp Hsend).
  apply calls_since_app. simpl. now rewrite <- app_assoc.
Qed.

(** In every state the server goes through, the message of the test
    client ([src/test-client.js]) on a registered connection whose sends do
    not throw is answered with exactly two frames, the snapshot of the SOL
    feed at its current price and the acknowledgment listing the SOL feed
    with a [null] subscription id, and the connection is then a
    subscriber of the SOL feed. *)
Theorem test_client_gets_snapshot_and_ack (evs : list (Env * Event))
  (env : Env) (ws : WS) (clientId : nat) (c : ClientData) :
  let st :=
    state_of (run Number_toString
                (Running (initial_state Number_toString)) evs) in
  Map_get ws (subscriptions st) = Some c ->
  (forall k, send_throws env k ws = false) ->
  let result :=
    on_message Number_toString env ws clientId (Some subscriptionMessage) st in
  exists p,
    currentPrices st = {[ Number_toString SOL_FEED_ID := p ]} /\
    fst result = Normal tt /\
    calls_since st (snd result) =
      [mkSendCall ws
         (MPriceUpdate (now env) [mkUpdate SOL_FEED_ID (Number_toString p)])
         false;
       mkSendCall ws (MSubscribed JNull [SOL_FEED_ID]) false] /\
    subscribed ws SOL_FEED_ID (snd result) = true.
Proof.
  intros st Hreg Hsend result.
  destruct (run_invariant evs (Running (initial_state Number_toString))
              initial_invariant) as [(_ & _ & p & Hp) _].
  fold st in Hp. exists p. split; [exact Hp|].
  assert (Hlook : currentPrices st !! Number_toString SOL_FEED_ID = Some p)
    by (rewrite Hp; apply lookup_singleton_eq).
  subst result. unfold on_message. run_monad.
  rewrite (subscriptionMessage_reply env ws st c p Hreg Hlook Hsend).
  split; [reflexivity|]. split.
  - apply calls_since_app. simpl. now rewrite <- app_assoc.
  - unfold subscribed, feeds_of. simpl.
    rewrite Map_get_mutate, Nat.eqb_refl, Hreg. simpl.
    rewrite Set_has_add, sameValueZero_refl. apply orb_true_r.
Qed.

(** ** Successive publications *)

Lemma delivered_to_app (ws : WS) (l1 l2 : list SendCall) :
  delivered_to ws (l1 ++ l2) = delivered_to ws l1 ++ delivered_to ws l2.
Proof. unfold delivered_to. now rewrite List.filter_app, map_app. Qed.

Lemma no_failure_when_no_throw (env : Env) (ws : WS) (calls : list SendCall) :
  Forall (fun c => exists i, threw c = send_throws env i (to c)) calls ->
  (forall i, send_throws env i ws = false) ->
  existsb (fun c => Nat.eqb (to c) ws && threw c) calls = false.
Proof.
  intros Hcalls Hws. induction Hcalls as [|c calls [i Hi] _ IH]; [reflexivity|].
  simpl. rewrite IH, orb_false_r.
  destruct (Nat.eqb_spec (to c) ws) as [E|E]; [|reflexivity].
  rewrite Hi, E, Hws. reflexivity.
Qed.

(** One firing of the timer, seen from an open subscriber of the SOL feed
    whose sends do not throw. *)
Lemma tick_delivery (env : Env) (newPrice : number) (st : State) (ws : WS) :
  Map_wf (subscriptions st) ->
  targeted env SOL_FEED_ID (subscriptions st) ws = true ->
  (forall i, send_throws env i ws = false) ->
  exists calls st',
    simulatePriceUpdates_tick Number_toString env newPrice st = (Normal tt, st') /\
    wire st' = wire st ++ calls /\
    delivered_to ws calls =
      [priceUpdate Number_toString env SOL_FEED_ID newPrice] /\
    Map_get ws (subscriptions st') = Map_get ws (subscriptions st) /\
    Map_wf (subscriptions st').
Proof.
  intros Hwf Ht Hsend.
  destruct (tick_state env newPrice st Hwf)
    as (calls & st' & Hrun & Hw & Hto & Hfr & Hs & _).
  exists calls, st'. split; [exact Hrun|]. split; [exact Hw|].
  assert (Hthrew : Forall (fun c => exists i, threw c = send_throws env i (to c))
                     calls)
    by (eapply Forall_impl; [exact Hfr|]; now intros c [_ H]).
  split; [|split].
  - rewrite (delivered_when_no_throw env ws calls Hthrew Hsend).
    rewrite (frames_to_once ws
               (priceUpdate Number_toString env SOL_FEED_ID newPrice)).
    + now rewrite Hto, (existsb_recipients _ _ _ _ Hwf), Ht.
    + rewrite Hto. now apply recipients_NoDup.
    + eapply Forall_impl; [exact Hfr|]. now intros c [H _].
  - rewrite Hs, Map_get_remove_failed.
    now rewrite (no_failure_when_no_throw env ws calls Hthrew Hsend).
  - rewrite Hs. now apply Map_wf_remove_failed.
Qed.

Lemma ticks_delivery (ws : WS) (c : ClientData)
  (ticks : list (Env * number)) :
  Forall (fun t => is_OPEN (readyState (fst t) ws) = true /\
                   forall k, send_throws (fst t) k ws = false) ticks ->
  Set_has SOL_FEED_ID (subscribedFeeds c) = true ->
  forall st,
    Map_wf (subscriptions st) ->
    Map_get ws (subscriptions st) = Some c ->
    exists calls st',
      run Number_toString (Running st) (tick_events ticks) = Running st' /\
      wire st' = wire st ++ calls /\
      delivered_to ws calls =
        map (fun t => priceUpdate Number_toString (fst t) SOL_FEED_ID (snd t))
          ticks /\
      Map_get ws (subscriptions st') = Some c.
Proof.
  intros Hticks Hsub.
  induction Hticks as [|[env p] ticks [Hopen Hsend] _ IH]; intros st Hwf Hreg.
  - exists [], st. simpl. rewrite app_nil_r. auto.
  - assert (Ht : targeted env SOL_FEED_ID (subscriptions st) ws = true).
    { unfold targeted. simpl in Hopen. now rewrite Hreg, Hopen, Hsub. }
    destruct (tick_delivery env p st ws Hwf Ht Hsend)
      as (calls1 & st1 & Hrun1 & Hw1 & Hd1 & Hget1 & Hwf1).
    rewrite Hreg in Hget1.
    destruct (IH st1 Hwf1 Hget1) as (calls2 & st2 & Hrun2 & Hw2 & Hd2 & Hget2).
    exists (calls1 ++ calls2), st2.
    split; [|split; [|split; [|exact Hget2]]].
    + change (tick_events ((env, p) :: ticks))
        with ((env, Tick p) :: tick_events ticks).
      change (run Number_toString (Running st)
                ((env, Tick p) :: tick_events ticks))
        with (run Number_toString
                (step Number_toString (Running st) (env, Tick p))
                (tick_events ticks)).
      cbn [step fst snd handle]. rewrite Hrun1. exact Hrun2.
    + now rewrite Hw2, Hw1, app_assoc.
    + rewrite delivered_to_app, Hd1, Hd2. reflexivity.
Qed.

(** Successive firings of the timer reach a subscriber one by one and in
    order: for a registered connection that has the SOL feed, whose socket
    is open and whose sends do not throw at each firing, the frames
    delivered to it over the firings are exactly the updates at the
    published prices, one per firing, in the order of the firings.
    Nothing is merged or dropped. *)
Theorem publications_arrive_in_order (ws : WS) (c : ClientData)
  (ticks : list (Env * number)) (st : State) :
  Map_wf (subscriptions st) ->
  Map_get ws (subscriptions st) = Some c ->
  Set_has SOL_FEED_ID (subscribedFeeds c) = true ->
  Forall (fun t => is_OPEN (readyState (fst t) ws) = true /\
                   forall k, send_throws (fst t) k ws = false) ticks ->
  let p := run Number_toString (Running st) (tick_events ticks) in
  is_running p = true /\
  delivered_to ws (calls_since st (state_of p)) =
    map (fun t =>
           MPriceUpdate (now (fst t))
             [mkUpdate SOL_FEED_ID (Number_toString (snd t))]) ticks.
Proof.
  intros Hwf Hreg Hsub Hticks.
  destruct (ticks_delivery ws c ticks Hticks Hsub st Hwf Hreg)
    as (calls & st' & Hrun & Hw & Hd & _).
  cbv zeta. rewrite Hrun. simpl. rewrite (calls_since_app _ _ _ Hw).
  split; [reflexivity | exact Hd].
Qed.

(** ** Requests one after the other *)

Lemma listed_numbers (n : number) (ids : list number) :
  listed n (map JNum ids) = Set_has n ids.
Proof.
  unfold listed. induction ids as [|m ids IH]; simpl; [reflexivity|].
  now rewrite IH.
Qed.


(** A subscribe request that runs to its end, on a registered connection. *)
Lemma handleSubscription_runs (env : Env) (ws : WS) (message : JSValue)
  (st : State) (c : ClientData) (elems : list JSValue) :
  Map_get ws (subscriptions st) = Some c ->
  get_prop message "subscriptions" = Normal (Some (JArr elems)) ->
  forallb (fun e => negb (is_null e)) elems = true ->
  (forall k, send_throws env k ws = false) ->
  exists st' sid,
    get_prop message "subscriptionId" = Normal sid /\
    handleSubscription Number_toString env ws message st = (Normal tt, st') /\
    subscriptions st' =
      Map_mutate ws (with_feeds (add_all (accepted_feedIds elems)))
        (subscriptions st) /\
    currentPrices st' = currentPrices st /\
    map frame (calls_since st st') =
      snapshots Number_toString env (currentPrices st)
        (accepted_feedIds elems) ++
      [MSubscribed (or_null sid) (accepted_feedIds elems)].
Proof.
  intros Hreg Hsubs Hnull Hsend.
  destruct (get_prop_not_null _ _ _ Hsubs "subscriptionId") as [sid Hsid].
  pose proof (subscribe_each_completes env ws elems Hnull Hsend [] st) as Hdone.
  destruct (handleSubscription_calls env ws message st c elems sid
              Hreg Hsubs Hsid) as [_ Hframes].
  rewrite (handleSubscription_array _ _ _ _ _ _ _ Hreg Hsubs Hsid) in *.
  destruct (subscribe_each _ _ _ _ _ _) as [[r acc] st1] eqn:Hloop.
  simpl in Hdone. subst r.
  destruct (subscribe_each_spec _ _ _ _ _ _ _ _ Hloop) as
    (ids & calls & Ha & _ & _ & _ & Hs & Hc & _ & _ & _ & Hn).
  destruct (Hn eq_refl) as [-> _]. simpl in Ha. subst acc.
  simpl in *. rewrite Hsend in *.
  eexists _, sid. split; [exact Hsid|]. split; [reflexivity|].
  simpl. auto.
Qed.



(** A subscribe request followed by an unsubscribe request for the ids
    that were accepted: the unsubscribe acknowledgment names exactly those
    ids, and afterwards the connection has the feeds it had before the
    subscribe, less the ids of the request.  In the frame that the socket
    gets each of these ids is written as the number it is, except that an
    infinite id is written [null]. *)
Theorem unsubscribing_undoes_subscribing (env : Env) (ws : WS)
  (message message' : JSValue) (st : State) (c : ClientData)
  (elems : list JSValue) :
  Map_get ws (subscriptions st) = Some c ->
  get_prop message "subscriptions" = Normal (Some (JArr elems)) ->
  forallb (fun e => negb (is_null e)) elems = true ->
  (forall k, send_throws env k ws = false) ->
  let ids := accepted_feedIds elems in
  get_prop message' "feedIds" = Normal (Some (JArr (map JNum ids))) ->
  let st1 := snd (handleSubscription Number_toString env ws message st) in
  let st2 := snd (handleUnsubscription env ws message' st1) in
  exists removed,
    calls_since st1 st2 = [mkSendCall ws (MUnsubscribed removed) false] /\
    (forall n, Set_has n removed = Set_has n ids) /\
    (forall n, Set_has n (feeds_of ws st2) =
               Set_has n (subscribedFeeds c) && negb (Set_has n ids)) /\
    map sent (calls_since st1 st2) = [FUnsubscribed (map wire_number removed)] /\
    Forall (fun n => wire_number n =
                     match n with
                     | S754_infinity _ => None
                     | _ => Some n
                     end) removed.
Proof.
  intros Hreg Hsubs Hnull Hsend ids Hids.
  destruct (handleSubscription_runs env ws message st c elems
              Hreg Hsubs Hnull Hsend)
    as (st1 & sid & _ & Hrun1 & Hs1 & _ & _).
  fold ids in Hs1.
  assert (Hreg1 : Map_get ws (subscriptions st1) =
                  Some (with_feeds (add_all ids) c)).
  { now rewrite Hs1, Map_get_mutate, Nat.eqb_refl, Hreg. }
  cbv zeta. rewrite Hrun1. simpl.
  unfold handleUnsubscription. run_monad. rewrite Hreg1, Hids. simpl.
  rewrite (unsubscribe_each_result ws (map JNum ids) [] st1 _ Hreg1). simpl.
  destruct (unsubscribe_result_spec (map JNum ids)
              (add_all ids (subscribedFeeds c))) as (H1 & H2 & _ & H4).
  unfold ws_send. simpl. rewrite Hsend. simpl.
  exists (fst (unsubscribe_result (map JNum ids)
                 (add_all ids (subscribedFeeds c)))).
  split; [apply calls_since_app; reflexivity|]. split; [|split; [|split]].
  - intros n. rewrite H1, listed_numbers, Set_has_add_all.
    destruct (Set_has n ids); [apply orb_true_r | reflexivity].
  - intros n. unfold feeds_of. simpl.
    rewrite Map_get_mutate, Nat.eqb_refl, Hreg1. simpl.
    rewrite H2, listed_numbers, Set_has_add_all.
    destruct (Set_has n ids), (Set_has n (subscribedFeeds c)); reflexivity.
  - erewrite calls_since_app by (simpl; reflexivity). reflexivity.
  - apply Forall_forall. intros n Hn.
    assert (Hin : JNum n ∈ map JNum ids).
    { apply (sublist_subseteq _ _ H4).
      apply list_elem_of_In, in_map. now apply list_elem_of_In. }
    apply list_elem_of_In, in_map_iff in Hin as (m & [= ->] & Hm).
    pose proof (accepted_feedIds_truthy elems) as Htruthy.
    rewrite Forall_forall in Htruthy.
    specialize (Htruthy n (proj2 (list_elem_of_In _ _) Hm)).
    destruct n; simpl in *; try discriminate; reflexivity.
Qed.

End Properties.

(** * The statements on sample data *)

Lemma unknown_connection_is_noop_witness :
  Map_get 9 (subscriptions two_subscribers) = None /\
  handleSubscription sample_toString calm_env 9
    (subscribe_msg [feed_obj (num 6)]) two_subscribers
  = (Normal tt, two_subscribers).
Proof.
  split; [reflexivity|].
  apply (unknown_connection_is_noop sample_toString calm_env 9
           (subscribe_msg [feed_obj (num 6)]) 0 two_subscribers).
  reflexivity.
Defined.

Lemma malformed_request_single_error_witness :
  let props := [("type", JStr "subscribe"); ("subscriptions", JStr "6")] in
  let c := {| id := 1; subscribedFeeds := []; connectedAt := 0%Z |} in
  Map_get 1 (subscriptions two_clients) = Some c /\
  own_property props "type" = Some (JStr (request_type SubscribeRequest)) /\
  Array_isArray (own_property props (request_field SubscribeRequest)) = false /\
  handleClientMessage sample_toString calm_env 1 (JObj props) two_clients =
    (Normal tt,
     push_wire (mkSendCall 1 (MError "Invalid subscription format") false)
       two_clients).
Proof.
  intros props c.
  assert (H1 : Map_get 1 (subscriptions two_clients) = Some c) by reflexivity.
  assert (H2 : own_property props "type"
               = Some (JStr (request_type SubscribeRequest))) by reflexivity.
  assert (H3 : Array_isArray
                 (own_property props (request_field SubscribeRequest)) = false)
    by reflexivity.
  split; [exact H1|]. split; [exact H2|]. split; [exact H3|].
  exact (proj1 (malformed_request_single_error sample_toString calm_env 1
                  props SubscribeRequest two_clients c H1 H2) H3).
Defined.

Lemma subscribe_adds_accepted_witness :
  let elems := [feed_obj (num 6); JStr "7"; feed_obj one_and_a_half;
                feed_obj (num 6)] in
  let c := {| id := 1; subscribedFeeds := []; connectedAt := 0%Z |} in
  Map_get 1 (subscriptions two_clients) = Some c /\
  get_prop (subscribe_msg elems) "subscriptions" = Normal (Some (JArr elems)) /\
  forallb (fun e => negb (is_null e)) elems = true /\
  (forall k, send_throws calm_env k 1 = false) /\
  exists st',
    handleSubscription sample_toString calm_env 1 (subscribe_msg elems)
      two_clients = (Normal tt, st') /\
    feeds_of 1 st' = [num 6; one_and_a_half].
Proof.
  intros elems c.
  assert (H1 : Map_get 1 (subscriptions two_clients) = Some c) by reflexivity.
  assert (H2 : get_prop (subscribe_msg elems) "subscriptions"
               = Normal (Some (JArr elems))) by reflexivity.
  assert (H3 : forallb (fun e => negb (is_null e)) elems = true) by reflexivity.
  assert (H4 : forall k, send_throws calm_env k 1 = false) by reflexivity.
  split; [exact H1|]. split; [exact H2|]. split; [exact H3|]. split; [exact H4|].
  destruct (subscribe_adds_accepted sample_toString calm_env 1
              (subscribe_msg elems) two_clients c elems H1 H2 H3 H4)
    as (st' & sid & _ & Hrun & _ & Hfeeds & _).
  exists st'. split; [exact Hrun|]. rewrite Hfeeds. reflexivity.
Defined.

Lemma snapshot_before_confirmation_witness :
  let elems := [feed_obj (num 6); feed_obj (num 7)] in
  let c := {| id := 1; subscribedFeeds := []; connectedAt := 0%Z |} in
  Map_get 1 (subscriptions two_clients) = Some c /\
  get_prop (subscribe_msg elems) "subscriptions" = Normal (Some (JArr elems)) /\
  map frame
    (calls_since two_clients
       (snd (handleSubscription sample_toString calm_env 1
               (subscribe_msg elems) two_clients)))
  = [priceUpdate sample_toString calm_env (num 6) starting_SOL_price;
     MSubscribed JNull [num 6; num 7]].
Proof.
  intros elems c.
  assert (H1 : Map_get 1 (subscriptions two_clients) = Some c) by reflexivity.
  assert (H2 : get_prop (subscribe_msg elems) "subscriptions"
               = Normal (Some (JArr elems))) by reflexivity.
  split; [exact H1|]. split; [exact H2|].
  destruct (snapshot_before_confirmation sample_toString calm_env 1
              (subscribe_msg elems) two_clients c elems H1 H2)
    as (sid & Hsid & _ & Hframes & _).
  rewrite Hframes. injection Hsid as <-. reflexivity.
Defined.

Lemma ack_echoes_truthy_subscriptionId_witness :
  let elems := [feed_obj (num 6)] in
  let message :=
    JObj [("type", JStr "subscribe"); ("subscriptionId", JNum (num 0));
          ("subscriptions", JArr elems)] in
  let c := {| id := 1; subscribedFeeds := []; connectedAt := 0%Z |} in
  Map_get 1 (subscriptions two_clients) = Some c /\
  get_prop message "subscriptions" = Normal (Some (JArr elems)) /\
  get_prop message "subscriptionId" = Normal (Some (JNum (num 0))) /\
  exists call feeds,
    In call
      (calls_since two_clients
         (snd (handleSubscription sample_toString calm_env 1 message
                 two_clients))) /\
    frame call = MSubscribed JNull feeds.
Proof.
  intros elems message c.
  assert (H1 : Map_get 1 (subscriptions two_clients) = Some c) by reflexivity.
  assert (H2 : get_prop message "subscriptions" = Normal (Some (JArr elems)))
    by reflexivity.
  assert (H3 : get_prop message "subscriptionId" = Normal (Some (JNum (num 0))))
    by reflexivity.
  split; [exact H1|]. split; [exact H2|]. split; [exact H3|].
  destruct (ack_echoes_truthy_subscriptionId sample_toString calm_env 1 message
              two_clients c elems (Some (JNum (num 0))) H1 H2 H3)
    as (Hid & Hsent & _).
  destruct (Hsent eq_refl) as (call & x & feeds & Hin & Hframe).
  exists call, feeds. split; [exact Hin|].
  destruct (Hid call x feeds Hin Hframe) as [_ Hnull].
  rewrite Hframe. f_equal. now apply Hnull.
Defined.

Lemma unsubscribe_removes_present_witness :
  let elems := [JNum (num 6); JNum (num 99)] in
  let c := {| id := 1; subscribedFeeds := [num 6]; connectedAt := 0%Z |} in
  Map_get 1 (subscriptions two_subscribers) = Some c /\
  get_prop (unsubscribe_msg elems) "feedIds" = Normal (Some (JArr elems)) /\
  exists removed,
    calls_since two_subscribers
      (snd (handleUnsubscription calm_env 1 (unsubscribe_msg elems)
              two_subscribers))
    = [mkSendCall 1 (MUnsubscribed removed) false] /\
    Set_has (num 6) removed = true /\ Set_has (num 99) removed = false.
Proof.
  intros elems c.
  assert (H1 : Map_get 1 (subscriptions two_subscribers) = Some c)
    by reflexivity.
  assert (H2 : get_prop (unsubscribe_msg elems) "feedIds"
               = Normal (Some (JArr elems))) by reflexivity.
  split; [exact H1|]. split; [exact H2|].
  destruct (unsubscribe_removes_present calm_env 1 (unsubscribe_msg elems)
              two_subscribers c elems H1 H2)
    as (removed & _ & Hcalls & Hrem & _).
  exists removed. split; [exact Hcalls|]. rewrite !Hrem. split; reflexivity.
Defined.

Lemma broadcast_reaches_open_subscribers_witness :
  Map_wf (subscriptions two_subscribers) /\
  let calls :=
    calls_since two_subscribers
      (snd (broadcastPriceUpdate sample_toString one_closing (num 6) (num 200)
              two_subscribers)) in
  frames_to 2 calls = [priceUpdate sample_toString one_closing (num 6) (num 200)]
  /\ frames_to 1 calls = [] /\ frames_to 3 calls = [].
Proof.
  assert (Hwf : Map_wf (subscriptions two_subscribers)).
  { apply (bool_decide_unpack _). vm_compute. exact I. }
  split; [exact Hwf|].
  destruct (broadcast_reaches_open_subscribers sample_toString one_closing
              (num 6) (num 200) two_subscribers Hwf) as (_ & _ & Hframes & _).
  cbv zeta in *. rewrite !Hframes. split; [reflexivity|split; reflexivity].
Defined.

Lemma broadcast_prunes_failed_sends_witness :
  Map_wf (subscriptions two_subscribers) /\
  let st' :=
    snd (broadcastPriceUpdate sample_toString (failing_env 1) (num 6) (num 200)
           two_subscribers) in
  map to (calls_since two_subscribers st') = [1; 2] /\
  registered 1 st' = false /\
  Map_get 2 (subscriptions st') = Map_get 2 (subscriptions two_subscribers).
Proof.
  assert (Hwf : Map_wf (subscriptions two_subscribers)).
  { apply (bool_decide_unpack _). vm_compute. exact I. }
  split; [exact Hwf|].
  destruct (broadcast_prunes_failed_sends sample_toString (failing_env 1)
              (num 6) (num 200) two_subscribers Hwf)
    as (_ & Hto & _ & Hgone & Hkeep & _).
  cbv zeta in *. split; [rewrite Hto; reflexivity|]. split.
  - apply (Hgone (mkSendCall 1
                    (priceUpdate sample_toString (failing_env 1) (num 6)
                       (num 200)) true)); [|reflexivity].
    vm_compute. left. reflexivity.
  - apply Hkeep. intros c Hin Hc. vm_compute in Hin.
    destruct Hin as [<-|[<-|[]]]; [discriminate Hc | reflexivity].
Defined.


(** C1, as the spec words it, fails: connection 1 is registered and has
    feed 6 in its set, its socket is closing, and the broadcast makes no
    call of [send] for it. *)
Lemma publish_reaches_every_subscriber_counterexample :
  let st := two_subscribers in
  let calls :=
    calls_since st
      (snd (broadcastPriceUpdate sample_toString one_closing (num 6) (num 200)
              st)) in
  ~ (forall ws,
       registered ws st = true -> subscribed ws (num 6) st = true ->
       frames_to ws calls =
       [priceUpdate sample_toString one_closing (num 6) (num 200)]).
Proof.
  intros st calls H. specialize (H 1 eq_refl eq_refl).
  vm_compute in H. discriminate H.
Qed.

(** C2, as the spec words it, fails: connection 1 is found with a socket
    that is not open during the broadcast, and it is still in the registry
    afterwards. *)
Lemma closed_connection_is_unregistered_counterexample :
  let st := two_subscribers in
  let st' :=
    snd (broadcastPriceUpdate sample_toString one_closing (num 6) (num 200) st) in
  ~ (forall ws,
       In ws (subscribersOf (num 6) st) ->
       is_OPEN (readyState one_closing ws) = false ->
       registered ws st' = false).
Proof.
  intros st st' H.
  assert (Hin : In 1 (subscribersOf (num 6) st)) by (vm_compute; auto).
  specialize (H 1 Hin eq_refl). vm_compute in H. discriminate H.
Qed.

(** C3, as the spec words it, fails in four ways.  The ids 1.5 and -6 are
    accepted although they are not positive integers.  A [null] element
    ends the loop: the ['message'] listener answers with an error frame, no
    acknowledgment is sent and the element after it is not processed.
    When the send of a snapshot throws, the handler ends with the feed
    added and no acknowledgment.  And the id Infinity (the text [1e999])
    is accepted and added, while the frame of the acknowledgment lists
    [null] in its place. *)
Lemma subscribe_accepts_positive_integers_counterexample :
  let st := two_clients in
  let answer env elems :=
    snd (on_message sample_toString env 1 1 (Some (subscribe_msg elems)) st) in
  ~ (forall env elems,
       frames_to 1 (calls_since st (answer env elems)) =
       snapshots sample_toString env (currentPrices st)
         (omap spec_valid_feedId elems) ++
       [MSubscribed JNull (omap spec_valid_feedId elems)]) /\
  (let elems := [feed_obj one_and_a_half; feed_obj (num (-6))] in
   omap spec_valid_feedId elems = [] /\
   frames_to 1 (calls_since st (answer calm_env elems)) =
     [MSubscribed JNull [one_and_a_half; num (-6)]] /\
   feeds_of 1 (answer calm_env elems) = [one_and_a_half; num (-6)]) /\
  (let elems := [feed_obj (num 6); JNull; feed_obj (num 7)] in
   omap spec_valid_feedId elems = [num 6; num 7] /\
   frames_to 1 (calls_since st (answer calm_env elems)) =
     [priceUpdate sample_toString calm_env (num 6) starting_SOL_price;
      MError "Invalid JSON format"] /\
   feeds_of 1 (answer calm_env elems) = [num 6]) /\
  (let message := subscribe_msg [feed_obj (num 6)] in
   let result :=
     handleSubscription sample_toString (failing_env 1) 1 message st in
   fst result = Throw SendError /\
   map frame (calls_since st (snd result)) =
     [priceUpdate sample_toString (failing_env 1) (num 6) starting_SOL_price] /\
   feeds_of 1 (snd result) = [num 6]) /\
  (let elems := [feed_obj Infinity] in
   feeds_of 1 (answer calm_env elems) = [Infinity] /\
   map sent (calls_since st (answer calm_env elems)) =
     [FSubscribed JNull [None]]).
Proof.
  intros st answer. split.
  - intros H.
    specialize (H calm_env [feed_obj one_and_a_half; feed_obj (num (-6))]).
    vm_compute in H. discriminate H.
  - repeat split; reflexivity.
Qed.

(** ** Further statements on sample data *)

Lemma ping_gets_pong_witness :
  let c := {| id := 1; subscribedFeeds := []; connectedAt := 0%Z |} in
  let message := JObj [("type", JStr "ping")] in
  Map_get 1 (subscriptions two_clients) = Some c /\
  get_prop message "type" = Normal (Some (JStr "ping")) /\
  handleClientMessage sample_toString calm_env 1 message two_clients =
    (Normal tt, push_wire (mkSendCall 1 (MPong 0%Z) false) two_clients).
Proof.
  intros c message.
  assert (H1 : Map_get 1 (subscriptions two_clients) = Some c) by reflexivity.
  assert (H2 : get_prop message "type" = Normal (Some (JStr "ping")))
    by reflexivity.
  split; [exact H1|]. split; [exact H2|].
  exact (ping_gets_pong sample_toString calm_env 1 message two_clients c H1 H2).
Defined.

Lemma unknown_type_reply_witness :
  let c := {| id := 1; subscribedFeeds := []; connectedAt := 0%Z |} in
  let message := JObj [("type", JStr "hello")] in
  let type := Some (JStr "hello") in
  Map_get 1 (subscriptions two_clients) = Some c /\
  get_prop message "type" = Normal type /\
  is_string type "subscribe" = false /\
  is_string type "unsubscribe" = false /\
  is_string type "ping" = false /\
  handleClientMessage sample_toString calm_env 1 message two_clients =
    (Normal tt,
     push_wire (mkSendCall 1 (MError "Unknown message type: hello") false)
       two_clients).
Proof.
  intros c message type.
  assert (H1 : Map_get 1 (subscriptions two_clients) = Some c) by reflexivity.
  assert (H2 : get_prop message "type" = Normal type) by reflexivity.
  assert (H3 : is_string type "subscribe" = false) by reflexivity.
  assert (H4 : is_string type "unsubscribe" = false) by reflexivity.
  assert (H5 : is_string type "ping" = false) by reflexivity.
  split; [exact H1|]. split; [exact H2|]. split; [exact H3|].
  split; [exact H4|]. split; [exact H5|].
  exact (proj1 (unknown_type_reply sample_toString calm_env 1 message
                  two_clients c type H1 H2 H3 H4 H5) "hello" eq_refl).
Defined.

Lemma process_survives_when_sends_succeed_witness :
  Forall (fun ee => sends_succeed (fst ee)) sample_events /\
  is_running (sample_run sample_events) = true.
Proof.
  assert (H : Forall (fun ee => sends_succeed (fst ee)) sample_events).
  { repeat constructor. }
  split; [exact H|].
  exact (process_survives_when_sends_succeed sample_toString sample_events H).
Defined.

Lemma tick_publishes_new_price_witness :
  Map_wf (subscriptions two_subscribers) /\
  let st' :=
    snd (simulatePriceUpdates_tick sample_toString calm_env (num 200)
           two_subscribers) in
  currentPrices st' !! sample_toString SOL_FEED_ID = Some (num 200) /\
  map to (calls_since two_subscribers st') = [1; 2].
Proof.
  assert (Hwf : Map_wf (subscriptions two_subscribers)).
  { apply (bool_decide_unpack _). vm_compute. exact I. }
  split; [exact Hwf|].
  destruct (tick_publishes_new_price sample_toString calm_env (num 200)
              two_subscribers Hwf) as (_ & Hp & _ & Hto & _).
  cbv zeta in *. split; [exact Hp|]. rewrite Hto. reflexivity.
Defined.

Lemma snapshot_shows_last_published_price_witness :
  let c := {| id := 1; subscribedFeeds := []; connectedAt := 0%Z |} in
  let st1 :=
    snd (simulatePriceUpdates_tick sample_toString calm_env (num 200)
           two_clients) in
  Map_wf (subscriptions two_clients) /\
  Map_get 1 (subscriptions st1) = Some c /\
  (forall k, send_throws calm_env k 1 = false) /\
  map frame
    (calls_since st1
       (snd (handleClientMessage sample_toString calm_env 1
               subscriptionMessage st1)))
  = [MPriceUpdate 0%Z [mkUpdate SOL_FEED_ID "200"];
     MSubscribed JNull [SOL_FEED_ID]].
Proof.
  intros c st1.
  assert (Hwf : Map_wf (subscriptions two_clients)).
  { apply (bool_decide_unpack _). vm_compute. exact I. }
  assert (H2 : Map_get 1 (subscriptions st1) = Some c) by reflexivity.
  assert (H3 : forall k, send_throws calm_env k 1 = false) by reflexivity.
  split; [exact Hwf|]. split; [exact H2|]. split; [exact H3|].
  pose proof (snapshot_shows_last_published_price sample_toString calm_env
                calm_env (num 200) two_clients 1 c Hwf H2 H3) as Hcalls.
  cbv zeta in Hcalls. fold st1 in Hcalls. rewrite Hcalls. reflexivity.
Defined.

Lemma test_client_gets_snapshot_and_ack_witness :
  let evs := [(calm_env, Connection 1 "10.0.0.1")] in
  let st := state_of (sample_run evs) in
  let c := {| id := 1; subscribedFeeds := []; connectedAt := 0%Z |} in
  Map_get 1 (subscriptions st) = Some c /\
  (forall k, send_throws calm_env k 1 = false) /\
  subscribed 1 SOL_FEED_ID
    (snd (on_message sample_toString calm_env 1 1 (Some subscriptionMessage) st))
  = true.
Proof.
  intros evs st c.
  assert (H1 : Map_get 1 (subscriptions st) = Some c) by reflexivity.
  assert (H2 : forall k, send_throws calm_env k 1 = false) by reflexivity.
  split; [exact H1|]. split; [exact H2|].
  destruct (test_client_gets_snapshot_and_ack sample_toString evs calm_env 1 1
              c H1 H2) as (p & _ & _ & _ & Hsub).
  exact Hsub.
Defined.

Lemma publications_arrive_in_order_witness :
  let c := {| id := 2; subscribedFeeds := [num 6]; connectedAt := 0%Z |} in
  let ticks := [(calm_env, num 200); (calm_env, num 201)] in
  Map_wf (subscriptions two_subscribers) /\
  Map_get 2 (subscriptions two_subscribers) = Some c /\
  Set_has SOL_FEED_ID (subscribedFeeds c) = true /\
  Forall (fun t => is_OPEN (readyState (fst t) 2) = true /\
                   forall k, send_throws (fst t) k 2 = false) ticks /\
  delivered_to 2
    (calls_since two_subscribers
       (state_of
          (run sample_toString (Running two_subscribers) (tick_events ticks))))
  = [MPriceUpdate 0%Z [mkUpdate SOL_FEED_ID "200"];
     MPriceUpdate 0%Z [mkUpdate SOL_FEED_ID "201"]].
Proof.
  intros c ticks.
  assert (Hwf : Map_wf (subscriptions two_subscribers)).
  { apply (bool_decide_unpack _). vm_compute. exact I. }
  assert (H2 : Map_get 2 (subscriptions two_subscribers) = Some c)
    by reflexivity.
  assert (H3 : Set_has SOL_FEED_ID (subscribedFeeds c) = true) by reflexivity.
  assert (H4 : Forall (fun t => is_OPEN (readyState (fst t) 2) = true /\
                                forall k, send_throws (fst t) k 2 = false)
                 ticks).
  { repeat constructor. }
  split; [exact Hwf|]. split; [exact H2|]. split; [exact H3|].
  split; [exact H4|].
  destruct (publications_arrive_in_order sample_toString 2 c ticks
              two_subscribers Hwf H2 H3 H4) as [_ Hd].
  rewrite Hd. reflexivity.
Defined.


Lemma unsubscribing_undoes_subscribing_witness :
  let c := {| id := 1; subscribedFeeds := []; connectedAt := 0%Z |} in
  let elems := [feed_obj (num 6); feed_obj (num 7)] in
  let message := subscribe_msg elems in
  let message' := unsubscribe_msg (map JNum (accepted_feedIds elems)) in
  let st1 := snd (handleSubscription sample_toString calm_env 1 message
                    two_clients) in
  let st2 := snd (handleUnsubscription calm_env 1 message' st1) in
  Map_get 1 (subscriptions two_clients) = Some c /\
  get_prop message "subscriptions" = Normal (Some (JArr elems)) /\
  forallb (fun e => negb (is_null e)) elems = true /\
  (forall k, send_throws calm_env k 1 = false) /\
  get_prop message' "feedIds"
    = Normal (Some (JArr (map JNum (accepted_feedIds elems)))) /\
  Set_has (num 6) (feeds_of 1 st2) = false.
Proof.
  intros c elems message message' st1 st2.
  assert (H1 : Map_get 1 (subscriptions two_clients) = Some c) by reflexivity.
  assert (H2 : get_prop message "subscriptions" = Normal (Some (JArr elems)))
    by reflexivity.
  assert (H3 : forallb (fun e => negb (is_null e)) elems = true) by reflexivity.
  assert (H4 : forall k, send_throws calm_env k 1 = false) by reflexivity.
  assert (H5 : get_prop message' "feedIds"
               = Normal (Some (JArr (map JNum (accepted_feedIds elems)))))
    by reflexivity.
  split; [exact H1|]. split; [exact H2|]. split; [exact H3|].
  split; [exact H4|]. split; [exact H5|].
  destruct (unsubscribing_undoes_subscribing sample_toString calm_env 1
              message message' two_clients c elems H1 H2 H3 H4 H5)
    as (removed & _ & _ & Hfeeds & _).
  fold st1 st2 in Hfeeds. rewrite Hfeeds. reflexivity.
Defined.

(** C5, as the spec words it, fails: connection 1 has subscribed to the id
    Infinity (the text [1e999]); an unsubscribe request for it removes it
    from the feed set, and the frame of the acknowledgment lists [null],
    not the id that was removed. *)
Lemma unsubscribe_ack_lists_removed_counterexample :
  let st := infinity_subscriber in
  let st' :=
    snd (handleUnsubscription calm_env 1 (unsubscribe_msg [JNum Infinity]) st) in
  Set_has Infinity (feeds_of 1 st) = true /\
  Set_has Infinity (feeds_of 1 st') = false /\
  map sent (calls_since st st') = [FUnsubscribed [None]] /\
  ~ (forall removed,
       Set_has removed (feeds_of 1 st) = true ->
       Set_has removed (feeds_of 1 st') = false ->
       map sent (calls_since st st') = [FUnsubscribed [Some removed]]).
Proof.
  intros st st'. split; [reflexivity|]. split; [reflexivity|].
  split; [reflexivity|].
  intros H. specialize (H Infinity eq_refl eq_refl). discriminate H.
Qed.
